(** * vscode-noir: the debug launcher and the test-tree client

    A shallow embedding of the two TypeScript sources of the extension:

    - [debugger.ts]: [resolveDebugConfiguration] (the pre-flight launch
      validator) and [preflightCheckPrinter] (the output sanitizer), in
      the current revision and in the earlier one kept under [src/];
    - [client.ts]: the test-tree part of the language client
      ([#createTests], [#updateTests], [#runTest]).

    JavaScript values are modelled as data: strings as sequences of
    UTF-16 code units, configuration objects as finite maps from property
    names to values, arrays as lists in index order.  The host (editor
    API, child process, language server) is a parameter of the model. *)

From Stdlib Require Import ZArith List String Ascii Lia Bool.
From Stdlib.Strings Require Import Byte.
From stdpp Require Import base gmap strings list pretty.
Import ListNotations.

(* ================================================================== *)
(** * JavaScript strings and buffers *)
(* ================================================================== *)

Module Js.

(** A JavaScript string is a sequence of UTF-16 code units. *)
Abbreviation JsString := (list Z).

Definition code (a : ascii) : Z := Z.of_N (N_of_ascii a).

(** A string literal of the source, as the string it denotes. *)
Definition lit (s : string) : JsString := map code (list_ascii_of_string s).

(** A Node [Buffer] is a sequence of bytes. *)
Abbreviation Buffer := (list byte).

Definition byte_val (b : byte) : Z := Z.of_N (Byte.to_N b).

Definition in_range (lo hi c : Z) : bool := ((lo <=? c) && (c <=? hi))%Z.

(** ** [Buffer.prototype.toString()]: UTF-8 decoding

    The decoder of the Encoding standard, which Node follows: a
    malformed sequence yields U+FFFD and the offending byte is read
    again as the start of a sequence; the byte order mark is kept. *)

Record Utf8State : Type := mkUtf8State {
  code_point : Z;
  bytes_needed : nat;
  lower_boundary : Z;
  upper_boundary : Z
}.

Definition utf8_lead (b : Z) : list Z * option Utf8State :=
  if in_range 0x00 0x7F b then ([b], None)
  else if in_range 0xC2 0xDF b then
    ([], Some (mkUtf8State (Z.land b 0x1F) 1 0x80 0xBF))
  else if in_range 0xE0 0xEF b then
    ([], Some (mkUtf8State (Z.land b 0xF) 2
                 (if (b =? 0xE0)%Z then 0xA0 else 0x80)
                 (if (b =? 0xED)%Z then 0x9F else 0xBF)))
  else if in_range 0xF0 0xF4 b then
    ([], Some (mkUtf8State (Z.land b 0x7) 3
                 (if (b =? 0xF0)%Z then 0x90 else 0x80)
                 (if (b =? 0xF4)%Z then 0x8F else 0xBF)))
  else ([0xFFFD%Z], None).

Definition utf8_step (st : option Utf8State) (b : Z)
  : list Z * option Utf8State :=
  match st with
  | None => utf8_lead b
  | Some s =>
      if in_range (lower_boundary s) (upper_boundary s) b then
        let cp := Z.lor (Z.shiftl (code_point s) 6) (Z.land b 0x3F) in
        match bytes_needed s with
        | S (S n) => ([], Some (mkUtf8State cp (S n) 0x80 0xBF))
        | _ => ([cp], None)
        end
      else
        let '(out, st') := utf8_lead b in (0xFFFD%Z :: out, st')
  end.

Fixpoint utf8_decode (st : option Utf8State) (bytes : list Z) : list Z :=
  match bytes with
  | [] => match st with Some _ => [0xFFFD%Z] | None => [] end
  | b :: bs =>
      let '(out, st') := utf8_step st b in out ++ utf8_decode st' bs
  end.

(** A code point as one code unit, or as a surrogate pair. *)
Definition utf16_units (cp : Z) : list Z :=
  if (cp <? 0x10000)%Z then [cp]
  else let c := (cp - 0x10000)%Z in
       [(0xD800 + Z.shiftr c 10)%Z; (0xDC00 + Z.land c 0x3FF)%Z].

Definition toString (buffer : Buffer) : JsString :=
  flat_map utf16_units (utf8_decode None (map byte_val buffer)).

End Js.

(* ================================================================== *)
(** * Regular expressions of the sanitizer *)
(* ================================================================== *)

Module Regex.
Import Js.

(** The fragment of regular expressions the source uses: character
    classes, sequence, alternation and the greedy star of a class. *)
Inductive regex : Type :=
| Class (p : Z -> bool)
| Seq (r1 r2 : regex)
| Alt (r1 r2 : regex)
| StarClass (p : Z -> bool).

(** Backtracking matcher, in continuation-passing style: [k] is what
    remains to be matched, the result is the input left after the
    whole match.  Alternatives are tried left to right and the star
    takes as many units as it can before giving some back. *)
Fixpoint rmatch (r : regex) (k : JsString -> option JsString)
         (s : JsString) : option JsString :=
  match r with
  | Class p =>
      match s with
      | c :: s' => if p c then k s' else None
      | [] => None
      end
  | Seq r1 r2 => rmatch r1 (rmatch r2 k) s
  | Alt r1 r2 =>
      match rmatch r1 k s with
      | Some rest => Some rest
      | None => rmatch r2 k s
      end
  | StarClass p =>
      (fix star (s : JsString) : option JsString :=
         match s with
         | c :: s' =>
             if p c then
               match star s' with
               | Some rest => Some rest
               | None => k s
               end
             else k s
         | [] => k s
         end) s
  end.

(** Length of the match of [r] at the start of [s], if there is one. *)
Definition exec (r : regex) (s : JsString) : option nat :=
  match rmatch r Some s with
  | Some rest => Some (length s - length rest)
  | None => None
  end.

(** [s.replace(/r/g, '')]: scan from the left; where [r] matches, the
    matched units are dropped and the scan resumes after them;
    elsewhere the unit is kept.  [skip] counts the units of the current
    match still to drop. *)
Fixpoint replace_from (r : regex) (skip : nat) (s : JsString) : JsString :=
  match s with
  | [] => []
  | c :: s' =>
      match skip with
      | S n => replace_from r n s'
      | O =>
          match exec r s with
          | Some (S n) => replace_from r n s'
          | _ => c :: replace_from r O s'
          end
      end
  end.

Definition replace_global (r : regex) (s : JsString) : JsString :=
  replace_from r O s.

Definition chr (a : ascii) : regex := Class (fun c => (c =? code a)%Z).
Definition range (a b : ascii) (c : Z) : bool := in_range (code a) (code b) c.

End Regex.

(* ================================================================== *)
(** * The output channel and the sanitizer *)
(* ================================================================== *)

Module Output.
Import Js Regex.

(** The part of the host's [OutputChannel] the sources use. *)
Record OutputChannel : Type := mkOutputChannel {
  lines : list JsString;
  visible : bool
}.

Definition clear (o : OutputChannel) : OutputChannel :=
  mkOutputChannel [] (visible o).
Definition appendLine (value : JsString) (o : OutputChannel) : OutputChannel :=
  mkOutputChannel (lines o ++ [value]) (visible o).
Definition show (o : OutputChannel) : OutputChannel :=
  mkOutputChannel (lines o) true.

Definition ESC : Z := 0x1b.

(** [/\x1b(?:[@-Z\\-_]|\[[0-?]*[ -/]*[@-~])/] *)
Definition re_ansi : regex :=
  Seq (Class (fun c => (c =? ESC)%Z))
      (Alt (Class (fun c => range "@" "Z" c || range "\" "_" c))
           (Seq (chr "[")
                (Seq (StarClass (range "0" "?"))
                     (Seq (StarClass (range " " "/"))
                          (Class (range "@" "~")))))).

(** The class [[ -~\n\t]] and its complement [[^ -~\n\t]]. *)
Definition printable (c : Z) : bool :=
  range " " "~" c || (c =? 10)%Z || (c =? 9)%Z.

Definition re_non_printable : regex := Class (fun c => negb (printable c)).

(** Tab, newline, and space through tilde, as a property of a unit. *)
Definition allowed (c : Z) : Prop :=
  (c = 9 \/ c = 10 \/ 32 <= c <= 126)%Z.

Definition sanitize (s : JsString) : JsString :=
  replace_global re_non_printable (replace_global re_ansi s).

(** [preflightCheckPrinter], the same in both revisions of
    [debugger.ts]: [formattedOutput] is the text it computes and
    appends to the channel. *)
Definition formattedOutput (buffer : Buffer) : JsString :=
  sanitize (toString buffer).

Definition preflightCheckPrinter (buffer : Buffer) (output : OutputChannel)
  : OutputChannel :=
  appendLine (formattedOutput buffer) output.

End Output.

(* ================================================================== *)
(** * JavaScript values and objects *)
(* ================================================================== *)

Module Value.
Import Js.

(** The values a configuration property can hold.  An object (or an
    array) has an identity and the string [ToPrimitive] gives for it;
    nothing else of it is observed by the sources.  Numbers are the
    integers: the sources only test them for truth. *)
Inductive JsValue : Type :=
| JUndefined
| JNull
| JBool (b : bool)
| JNumber (n : Z)
| JString (s : JsString)
| JObject (ref : nat) (prim : JsString).

Definition jsstring_eqb (s t : JsString) : bool :=
  bool_decide (s = t).

(** [ToBoolean] *)
Definition truthy (v : JsValue) : bool :=
  match v with
  | JUndefined | JNull => false
  | JBool b => b
  | JNumber n => negb (n =? 0)%Z
  | JString s => negb (jsstring_eqb s [])
  | JObject _ _ => true
  end.

(** [a || b] and [a && b] *)
Definition js_or (a b : JsValue) : JsValue := if truthy a then a else b.
Definition js_and (a b : JsValue) : JsValue := if truthy a then b else a.

(** [a === b] *)
Definition strict_eq (a b : JsValue) : bool :=
  match a, b with
  | JUndefined, JUndefined => true
  | JNull, JNull => true
  | JBool x, JBool y => Bool.eqb x y
  | JNumber x, JNumber y => (x =? y)%Z
  | JString x, JString y => jsstring_eqb x y
  | JObject x _, JObject y _ => (x =? y)%nat
  | _, _ => false
  end.

(** [v == text] for a string [text] that does not read as a number (so
    that no number or boolean is loosely equal to it): a string is
    compared as it is and an object through its primitive value. *)
Definition loose_eq_text (v : JsValue) (text : JsString) : bool :=
  match v with
  | JString s => jsstring_eqb s text
  | JObject _ prim => jsstring_eqb prim text
  | _ => false
  end.

(** An object read as a dictionary: an absent property reads
    [undefined]. *)
Abbreviation JsObject := (gmap string JsValue).

Definition get (o : JsObject) (key : string) : JsValue :=
  default JUndefined (o !! key).

(** The text of a string literal as a value. *)
Definition str (s : string) : JsValue := JString (lit s).

End Value.

(* ================================================================== *)
(** * The host of the debug launcher *)
(* ================================================================== *)

Module Host.
Import Js Value Output.

(** [window.activeTextEditor.document] *)
Record TextDocument : Type := mkTextDocument {
  languageId : JsString;
  fsPath : JsString          (* [document.uri.fsPath] *)
}.

(** What the launcher reads from its surroundings.  [findNargo] and
    [findNearestPackageFrom] are modules of the extension that the
    launcher imports; they are taken as they come. *)
Record Host : Type := mkHost {
  activeTextEditor : option TextDocument;
  nargoPathSetting : option JsString;  (* [get<string | undefined>('nargoPath')] *)
  findNargo : JsString;
  findNearestPackageFrom : JsString -> JsValue
}.

(** [workspaceConfig.get('nargoPath') || findNargo()] *)
Definition nargoPath (h : Host) : JsString :=
  match nargoPathSetting h with
  | Some p => if jsstring_eqb p [] then findNargo h else p
  | None => findNargo h
  end.

(** What the spawned child process does up to its [exit] event: the
    [data] events of its output streams that arrive before it, in the
    order they arrive, then the [exit] event itself ([null] when a
    signal ended it).  The call completes on [exit], not on [close]:
    [data] events that arrive later find the call completed, and are
    no part of a [ChildRun]. *)
Record ChildRun : Type := mkChildRun {
  chunks : list Buffer;
  exit_code : option Z
}.

(** How a call of [resolveDebugConfiguration] completes. *)
Inductive Outcome : Type :=
| Returned (config : JsObject)
| Informed (message : JsString)   (* [showInformationMessage]; no configuration *)
| Thrown (error : JsString).

(** The call either completes at once or spawns the child process and
    completes when that has exited. *)
Inductive Launch : Type :=
| Done (o : Outcome) (out : OutputChannel)
| Spawn (command : JsString) (args : list JsValue)
        (k : ChildRun -> Outcome * OutputChannel).

(** [code !== 0] and [code == 0] for [code : number | null] *)
Definition strict_ne_zero (code : option Z) : bool :=
  match code with Some c => negb (c =? 0)%Z | None => true end.
Definition loose_eq_zero (code : option Z) : bool :=
  match code with Some c => (c =? 0)%Z | None => false end.

(** [`${code}`] *)
Definition show_code (code : option Z) : JsString :=
  match code with Some c => lit (pretty c) | None => lit "null" end.

Definition launch_error : JsString :=
  lit "Error launching debugger. Please inspect the Output pane for more details.".

(** The rest of [resolveDebugConfiguration] once the child is spawned:
    the data handlers, the exit handler and the code after the
    [await]. *)
Definition preflightCheckMonitor (result : JsObject) (out : OutputChannel)
           (run : ChildRun) : Outcome * OutputChannel :=
  let out := fold_left (fun o ev_buffer => preflightCheckPrinter ev_buffer o)
                       (chunks run) out in
  let code := exit_code run in
  let out := if strict_ne_zero code
             then appendLine (lit "Exited with code " ++ show_code code) out
             else out in
  let ready := loose_eq_zero code in
  if negb ready then (Thrown launch_error, show out)
  else (Returned result, appendLine (lit "Starting debugger session...") out).

Definition announce (h : Host) (out : OutputChannel) : OutputChannel :=
  appendLine (lit "")
    (appendLine (lit "Compiling Noir project...")
       (appendLine (lit "Using nargo at " ++ nargoPath h) (clear out))).

Definition select_noir_file : JsString := lit "Select a Noir file to debug".

(** [window.activeTextEditor?.document.languageId != 'noir']: the
    document of the active editor when there is one and its language
    is Noir. *)
Definition noir_document (h : Host) : option TextDocument :=
  match activeTextEditor h with
  | Some doc =>
      if jsstring_eqb (languageId doc) (lit "noir") then Some doc else None
  | None => None
  end.

End Host.

(* ================================================================== *)
(** * [debugger.ts], current revision *)
(* ================================================================== *)

Module Debugger.
Import Js Value Output Host.

(** [config.projectFolder && config.projectFolder !== ``] *)
Definition projectFolder_given (config : JsObject) : bool :=
  truthy (js_and (get config "projectFolder")
                 (JBool (negb (strict_eq (get config "projectFolder") (str ""))))).

Definition resolvedConfig (h : Host) (currentFilePath : JsString)
           (config : JsObject) : JsObject :=
  let projectFolder :=
    if projectFolder_given config
    then get config "projectFolder"
    else findNearestPackageFrom h currentFilePath in
  list_to_map
    [ ("type", js_or (get config "type") (str "noir"));
      ("name", js_or (get config "name") (str "Noir binary package"));
      ("request", str "launch");
      ("program", JString currentFilePath);
      ("projectFolder", projectFolder);
      ("package", js_or (get config "package") (str ""));
      ("proverName", js_or (get config "proverName") (str "Prover"));
      ("generateAcir", js_or (get config "generateAcir") (JBool false));
      ("skipInstrumentation",
        js_or (get config "skipInstrumentation") (JBool false)) ].

Definition preflightArgs (resolvedConfig config : JsObject) : list JsValue :=
  [ str "dap";
    str "--preflight-check";
    str "--preflight-project-folder";
    get resolvedConfig "projectFolder";
    str "--preflight-prover-name";
    get resolvedConfig "proverName" ]
  ++ (if negb (strict_eq (get resolvedConfig "package") (str ""))
      then [str "--preflight-package"; get config "package"] else [])
  ++ (if truthy (get resolvedConfig "generateAcir")
      then [str "--preflight-generate-acir"] else [])
  ++ (if truthy (get resolvedConfig "skipInstrumentation")
      then [str "--preflight-skip-instrumentation"] else []).

Definition resolveDebugConfiguration (h : Host) (outputChannel : OutputChannel)
           (config : JsObject) : Launch :=
  match noir_document h with
  | None => Done (Informed select_noir_file) outputChannel
  | Some doc =>
      let currentFilePath := fsPath doc in
      let resolved := resolvedConfig h currentFilePath config in
      let out := announce h outputChannel in
      Spawn (nargoPath h) (preflightArgs resolved config)
            (preflightCheckMonitor resolved out)
  end.

(** The fields of the returned configuration that an input value can
    set, and the default of each. *)
Definition overridable : list string :=
  [ "type"; "name"; "projectFolder"; "package"; "proverName";
    "generateAcir"; "skipInstrumentation" ].

Definition default_of (h : Host) (doc : TextDocument) (field : string) : JsValue :=
  if String.eqb field "type" then str "noir"
  else if String.eqb field "name" then str "Noir binary package"
  else if String.eqb field "projectFolder" then findNearestPackageFrom h (fsPath doc)
  else if String.eqb field "package" then str ""
  else if String.eqb field "proverName" then str "Prover"
  else JBool false.

End Debugger.

(* ================================================================== *)
(** * [debugger.ts], earlier revision ([src/debugger.ts]) *)
(* ================================================================== *)

Module DebuggerV1.
Import Js Value Output Host.

Definition launchConfig (currentFilePath : JsString)
           (currentProjectFolder : JsValue) : JsObject :=
  list_to_map
    [ ("type", str "noir");
      ("name", str "Noir binary package");
      ("request", str "launch");
      ("program", JString currentFilePath);
      ("projectFolder", currentProjectFolder) ].

Definition preflightArgs (currentProjectFolder : JsValue) : list JsValue :=
  [ str "dap";
    str "--preflight-check";
    str "--preflight-project-folder";
    currentProjectFolder ].

Definition resolveDebugConfiguration (h : Host) (outputChannel : OutputChannel)
           (config : JsObject) : Launch :=
  if truthy (get config "program")
     || loose_eq_text (get config "request") (lit "attach")
  then Done (Returned config) outputChannel
  else
    match noir_document h with
    | None => Done (Informed select_noir_file) outputChannel
    | Some doc =>
        let currentFilePath := fsPath doc in
        let currentProjectFolder := findNearestPackageFrom h currentFilePath in
        let out := announce h outputChannel in
        Spawn (nargoPath h) (preflightArgs currentProjectFolder)
              (preflightCheckMonitor
                 (launchConfig currentFilePath currentProjectFolder) out)
    end.

End DebuggerV1.

(* ================================================================== *)
(** * [client.ts]: the test tree *)
(* ================================================================== *)

Module Client.
Import Js.

(** [vscode.Range], kept as the four numbers it holds. *)
Record Range : Type := mkRange {
  start_line : Z; start_character : Z; end_line : Z; end_character : Z
}.

(** One entry of [NargoTests.tests]. *)
Record NargoTest : Type := mkNargoTest {
  test_id : JsString;
  test_label : JsString;
  test_uri : JsString;
  test_range : Range
}.

(** The payload of [nargo/tests/update] and one element of the answer
    to [nargo/tests]; [tests] is optional. *)
Record NargoTests : Type := mkNargoTests {
  package : JsString;
  uri : JsString;
  tests : option (list NargoTest)
}.

#[local] Set Warnings "-register-all".

(** A [TestItem] of the host.  [handle] stands for the identity of the
    object: [createTestItem] gives every item a fresh one.  [parent]
    is the handle of the item whose [children] hold this one;
    [children] is the item's [TestItemCollection], in the order
    [forEach] visits it. *)
Inductive TestItem : Type := mkTestItem {
  handle : nat;
  id : JsString;
  label : JsString;
  item_uri : option JsString;
  range : option Range;
  parent : option nat;
  children : list TestItem
}.

Definition set_range (r : Range) (t : TestItem) : TestItem :=
  mkTestItem (handle t) (id t) (label t) (item_uri t) (Some r)
             (parent t) (children t).
Definition set_parent (p : nat) (t : TestItem) : TestItem :=
  mkTestItem (handle t) (id t) (label t) (item_uri t) (range t)
             (Some p) (children t).
Definition set_children (c : list TestItem) (t : TestItem) : TestItem :=
  mkTestItem (handle t) (id t) (label t) (item_uri t) (range t)
             (parent t) c.

(** ** [TestItemCollection]: items keyed by id, in insertion order *)

Definition has_id (i : JsString) (t : TestItem) : bool :=
  bool_decide (id t = i).

(** [collection.get(id)] *)
Definition coll_get (i : JsString) (coll : list TestItem) : option TestItem :=
  find (has_id i) coll.

(** [collection.add(item)]: an item with the same id is replaced (it
    keeps its place, as a key set again in a JavaScript [Map] does);
    otherwise the item goes last. *)
Fixpoint coll_add (item : TestItem) (coll : list TestItem) : list TestItem :=
  match coll with
  | [] => [item]
  | t :: rest =>
      if has_id (id item) t then item :: rest
      else t :: coll_add item rest
  end.

(** [pkg.children.add(item)]: the item becomes a child of [pkg]. *)
Definition add_child (item pkg : TestItem) : TestItem :=
  set_children (coll_add (set_parent (handle pkg) item) (children pkg)) pkg.

(** ** The test controller *)

(** The controller, from the moment [initialize] has created it.
    [supportsInvalidation] tells whether the host has
    [invalidateTestResults] (it came with vscode 1.81.0);
    [invalidated] records the calls of it, each with the handle of its
    argument ([None] for [undefined]). *)
Record TestController : Type := mkTestController {
  items : list TestItem;
  next_handle : nat;
  supportsInvalidation : bool;
  invalidated : list (option nat)
}.

Definition createTestItem (i l : JsString) (u : option JsString)
           (c : TestController) : TestItem * TestController :=
  (mkTestItem (next_handle c) i l u None None [],
   mkTestController (items c) (S (next_handle c))
                    (supportsInvalidation c) (invalidated c)).

Definition items_add (item : TestItem) (c : TestController) : TestController :=
  mkTestController (coll_add item (items c)) (next_handle c)
                   (supportsInvalidation c) (invalidated c).

Definition invalidateTestResults (item : option TestItem) (c : TestController)
  : TestController :=
  mkTestController (items c) (next_handle c) (supportsInvalidation c)
                   (invalidated c ++ [option_map handle item]).

(** How a method of the client completes: normally, or by an exception
    that leaves the controller as it was at that point. *)
Inductive Completion : Type :=
| Normal (c : TestController)
| TypeError (c : TestController).

(** The body of [testData.tests.forEach] in [#createTests]. *)
Definition createTest (test : NargoTest) (st : TestItem * TestController)
  : TestItem * TestController :=
  let '(pkg, c) := st in
  let '(item, c) := createTestItem (test_id test) (test_label test)
                                   (Some (test_uri test)) c in
  let item := set_range (test_range test) item in
  (add_child item pkg, c).

Definition createTests (testData : NargoTests) (c : TestController)
  : Completion :=
  let '(pkg, c) := createTestItem (package testData) (package testData) None c in
  match tests testData with
  | None => TypeError c       (* [undefined.forEach] *)
  | Some ts =>
      let '(pkg, c) := fold_left (fun st test => createTest test st) ts (pkg, c) in
      Normal (items_add pkg c)
  end.

Definition updateTests (testData : NargoTests) (c : TestController)
  : Completion :=
  let c :=
    if supportsInvalidation c then
      let pkg := coll_get (package testData) (items c) in
      invalidateTestResults pkg c
    else c in
  createTests testData c.

(** [response.forEach(...)] of [#fetchTests] and [#refreshTests]: an
    exception ends the iteration. *)
Fixpoint forEach_tests (f : NargoTests -> TestController -> Completion)
         (response : list NargoTests) (c : TestController) : Completion :=
  match response with
  | [] => Normal c
  | testData :: rest =>
      match f testData c with
      | Normal c' => forEach_tests f rest c'
      | TypeError c' => TypeError c'
      end
  end.

Definition fetchTests := forEach_tests createTests.
Definition refreshTests := forEach_tests updateTests.

(** ** Running tests *)

Inductive Verdict : Type :=
| pass
| fail
| error
| unknown (text : JsString).   (* anything else the server may answer *)

Record RunTestResult : Type := mkRunTestResult {
  result_id : JsString;
  result : Verdict;
  message : JsString
}.

(** The language server and the cancellation token, as seen from
    [#runTest]: [World] is their joint state, a request answers with a
    result or rejects, and both may change the state.  Every request
    settles here; the source awaits each one without a timeout, so a
    request that never settles leaves the run suspended at that
    [await], with the log it has at that point and no [run.end()]. *)
Record Server (World : Type) : Type := mkServer {
  isCancellationRequested : World -> bool;
  sendRequest : World -> JsString -> World * (RunTestResult + JsString)
}.
Arguments isCancellationRequested {World}.
Arguments sendRequest {World}.

Record TestRunRequest : Type := mkTestRunRequest {
  include : option (list TestItem);
  exclude : option (list TestItem)
}.

(** What [#runTest] does that others can see, in order. *)
Inductive RunEvent : Type :=
| Requested (test : TestItem)      (* [nargo/tests/run] with [{ id: test.id }] *)
| Passed (test : TestItem)
| Failed (test : TestItem) (message : JsString)
| Ended.

(** How [#runTest] completes. *)
Inductive RunOutcome (World : Type) : Type :=
| Finished (w : World) (log : list RunEvent)
| Rejected (w : World) (log : list RunEvent) (reason : JsString)
| OutOfFuel.
Arguments Finished {World}.
Arguments Rejected {World}.
Arguments OutOfFuel {World}.

(** [queue.push(test)] and [queue.pop()] on an array *)
Definition push (queue : list TestItem) (test : TestItem) : list TestItem :=
  queue ++ [test].
Definition pop (queue : list TestItem) : option (TestItem * list TestItem) :=
  match rev queue with
  | [] => None
  | test :: before => Some (test, rev before)
  end.

Definition push_all (tests queue : list TestItem) : list TestItem :=
  fold_left push tests queue.

(** [array.includes(test)]: the same object *)
Definition same_item (a b : TestItem) : bool := (handle a =? handle b)%nat.
Definition includes (l : list TestItem) (test : TestItem) : bool :=
  existsb (same_item test) l.

(** [request.exclude?.includes(test)] *)
Definition excluded (request : TestRunRequest) (test : TestItem) : bool :=
  match exclude request with
  | Some l => includes l test
  | None => false
  end.

(** Number of items in a tree, and in the trees of a queue. *)
Fixpoint weight (t : TestItem) : nat :=
  S ((fix weights (l : list TestItem) : nat :=
        match l with
        | [] => 0
        | c :: l' => weight c + weights l'
        end) (children t)).

Definition total_weight (l : list TestItem) : nat :=
  fold_right (fun t n => weight t + n) 0 l.

Section RunTest.
Context {World : Type} (server : Server World).

(** The [while] loop of [#runTest]; each unit of [fuel] pays for one
    evaluation of the loop condition. *)
Fixpoint run_loop (fuel : nat) (request : TestRunRequest)
         (queue : list TestItem) (w : World) (log : list RunEvent)
  : RunOutcome World :=
  match fuel with
  | O => OutOfFuel
  | S fuel =>
      if (0 <? length queue)%nat && negb (isCancellationRequested server w)
      then
        match pop queue with
        | None => Finished w (log ++ [Ended])
        | Some (test, queue) =>
            if excluded request test then run_loop fuel request queue w log
            else
              match parent test with
              | Some _ =>
                  let '(w, answer) := sendRequest server w (id test) in
                  let log := log ++ [Requested test] in
                  match answer with
                  | inr reason => Rejected w log reason
                  | inl r =>
                      match result r with
                      | pass =>
                          run_loop fuel request queue w (log ++ [Passed test])
                      | fail | error =>
                          run_loop fuel request queue w
                                   (log ++ [Failed test (message r)])
                      | unknown _ =>
                          run_loop fuel request
                                   (push_all (children test) queue) w log
                      end
                  end
              | None =>
                  run_loop fuel request (push_all (children test) queue) w log
              end
        end
      else Finished w (log ++ [Ended])
  end.

(** The queue [#runTest] starts from. *)
Definition initial_queue (request : TestRunRequest) (c : TestController)
  : list TestItem :=
  match include request with
  | Some tests => push_all tests []
  | None => push_all (items c) []
  end.

Definition runTest (request : TestRunRequest) (c : TestController)
           (w : World) : RunOutcome World :=
  let queue := initial_queue request c in
  run_loop (S (total_weight queue)) request queue w [].

End RunTest.

Definition log_of {World : Type} (o : RunOutcome World) : list RunEvent :=
  match o with
  | Finished _ log | Rejected _ log _ => log
  | OutOfFuel => []
  end.

(** The tests a run asked the server for, in order. *)
Definition requested (log : list RunEvent) : list TestItem :=
  flat_map (fun e => match e with Requested t => [t] | _ => [] end) log.

(** [reaches request q t]: [t] is [q], or comes from [q] by going, once
    or more, from a node that is not excluded to one of its children. *)
Inductive reaches (request : TestRunRequest) : TestItem -> TestItem -> Prop :=
| reaches_here q : reaches request q q
| reaches_child q t c :
    reaches request q t -> excluded request t = false ->
    In c (children t) -> reaches request q c.

(** [descends a t]: [t] is a child of [a], or of a child of [a], and so
    on. *)
Inductive descends : TestItem -> TestItem -> Prop :=
| descends_child a c : In c (children a) -> descends a c
| descends_deeper a c t : In c (children a) -> descends c t -> descends a t.

(** The handles of the items of a tree. *)
Fixpoint handles (t : TestItem) : list nat :=
  handle t ::
  (fix handles_of (l : list TestItem) : list nat :=
     match l with
     | [] => []
     | c :: l' => handles c ++ handles_of l'
     end) (children t).

(** No object occurs twice in the tree of the controller. *)
Definition distinct_items (c : TestController) : Prop :=
  List.NoDup (flat_map handles (items c)).

(** What [#createTests] keeps true of the controller: its items are
    distinct objects, all made before [next_handle]. *)
Definition well_formed (c : TestController) : Prop :=
  distinct_items c /\
  Forall (fun h => h < next_handle c) (flat_map handles (items c)).

(** [item] is what [#createTests] makes of [test] under the package
    item whose handle is [owner]. *)
Definition shows (owner : nat) (item : TestItem) (test : NargoTest) : Prop :=
  id item = test_id test /\ label item = test_label test /\
  item_uri item = Some (test_uri test) /\ range item = Some (test_range test) /\
  parent item = Some owner /\ children item = [].

End Client.

(* ================================================================== *)
(** * [debugger.ts]: the debug adapter, and escape sequences *)
(* ================================================================== *)

Module Adapter.
Import Js Regex Value Output Host.

(** [createDebugAdapterDescriptor] (the same in both revisions): the
    executable and the arguments of the live debug adapter. *)
Definition createDebugAdapterDescriptor (h : Host) : JsString * list JsValue :=
  let configuredNargoPath := nargoPathSetting h in
  let nargoPath :=
    match configuredNargoPath with
    | Some p => if jsstring_eqb p [] then findNargo h else p
    | None => findNargo h
    end in
  (nargoPath, [str "dap"]).

(** A call of [resolveDebugConfiguration] taken to its end, [run] being
    what the child does if one is spawned. *)
Definition finish (l : Launch) (run : ChildRun) : Outcome * OutputChannel :=
  match l with
  | Done o out => (o, out)
  | Spawn _ _ k => k run
  end.



(** Two outcomes that a user cannot tell apart by the fields both
    revisions of the launcher set. *)
Definition same_launch (o1 o2 : Outcome) : Prop :=
  match o1, o2 with
  | Returned r1, Returned r2 =>
      forall field,
        In field ["type"; "name"; "request"; "program"; "projectFolder"] ->
        get r1 field = get r2 field
  | Informed m1, Informed m2 => m1 = m2
  | Thrown e1, Thrown e2 => e1 = e2
  | _, _ => False
  end.

(** The escape sequences the first expression of the sanitizer is
    written for: ESC and one unit of [[@-Z\\-_]], or ESC, an opening
    bracket, parameter units [[0-?]], intermediate units [[ -/]] and a
    final unit [[@-~]]. *)
Inductive escape_sequence : JsString -> Prop :=
| escape_two c :
    range "@" "Z" c || range "\" "_" c = true ->
    escape_sequence [ESC; c]
| escape_csi params inter final :
    Forall (fun c => range "0" "?" c = true) params ->
    Forall (fun c => range " " "/" c = true) inter ->
    range "@" "~" final = true ->
    escape_sequence (ESC :: code "[" :: params ++ inter ++ [final]).

End Adapter.

(* ================================================================== *)
(** * [client.ts]: the command of the language server *)
(* ================================================================== *)

Module Lsp.
Import Js Value.

(** The part of [vscode.Uri] the source reads. *)
Record Uri : Type := mkUri {
  uri_fsPath : JsString;
  uri_scheme : JsString
}.

(** The settings [workspace.getConfiguration('noir', uri)] gives. *)
Record Settings : Type := mkSettings {
  enableLSP : option bool;        (* [get<boolean>('enableLSP')] *)
  nargoFlags : option JsString;   (* [get<string | undefined>('nargoFlags')] *)
  enableCodeLens : option bool    (* [get<boolean>('enableCodeLens')] *)
}.

(** What the module reads from its surroundings; [getNargoPath],
    [languageId] and [extensionName] are imported from modules of the
    extension and taken as they come. *)
Record Workspace : Type := mkWorkspace {
  getConfiguration : Uri -> Settings;
  getNargoPath : Uri -> JsString;
  languageId : JsString;
  extensionName : JsString
}.

(** [s.replaceAll(pattern, replacement)] for one-unit strings *)
Definition replaceAll (pattern replacement : Z) (s : JsString) : JsString :=
  map (fun c => if (c =? pattern)%Z then replacement else c) s.

Definition globFromUri (uri : Uri) (glob : JsString) : JsString :=
  replaceAll (code "\") (code "/") (uri_fsPath uri ++ glob).

(** [s.split(separator)] for a one-unit separator *)
Fixpoint split (separator : Z) (s : JsString) : list JsString :=
  match s with
  | [] => [[]]
  | c :: s' =>
      if (c =? separator)%Z then [] :: split separator s'
      else
        match split separator s' with
        | word :: words => (c :: word) :: words
        | [] => [[c]]
        end
  end.

(** [pieces.join(separator)] for a one-unit separator: what [split]
    takes apart. *)
Fixpoint join (separator : Z) (pieces : list JsString) : JsString :=
  match pieces with
  | [] => []
  | [piece] => piece
  | piece :: rest => piece ++ separator :: join separator rest
  end.

Definition getLspCommand (ws : Workspace) (uri : Uri)
  : option (JsString * list JsString) :=
  let config := getConfiguration ws uri in
  let lspEnabled := enableLSP config in
  match lspEnabled with
  | Some true =>
      let command := getNargoPath ws uri in
      let flags :=
        match nargoFlags config with
        | Some f => if jsstring_eqb f [] then [] else f
        | None => []
        end in
      let args :=
        List.filter (fun arg => negb (jsstring_eqb arg []))
                    (lit "lsp" :: split (code " ") flags) in
      Some (command, args)
  | _ => None
  end.

(** The flags as [getLspCommand] reads them: [nargoFlags || ''] *)
Definition flags_of (ws : Workspace) (uri : Uri) : JsString :=
  match nargoFlags (getConfiguration ws uri) with
  | Some f => f
  | None => []
  end.

Record TextDocumentFilter : Type := mkTextDocumentFilter {
  scheme : JsString;
  language : JsString;
  pattern : JsString
}.

(** [vscode.WorkspaceFolder], of which only the presence is read. *)
Record WorkspaceFolder : Type := mkWorkspaceFolder {
  folder_name : JsString
}.

(** What the constructor of [Client] hands to [super] and keeps. *)
Record ClientSetup : Type := mkClientSetup {
  documentSelector : list TextDocumentFilter;
  workspaceFolder : option WorkspaceFolder;
  initializationOptions : option bool;   (* [{ enableCodeLens }] *)
  command : JsString;
  args : list JsString
}.

(** The constructor of [Client], up to the call of [super]; [None] is
    the [TypeError] of destructuring [undefined]. *)
Definition constructor (ws : Workspace) (uri : Uri)
           (workspaceFolder : option WorkspaceFolder) : option ClientSetup :=
  match getLspCommand ws uri with
  | None => None
  | Some (command, args) =>
      let documentSelector :=
        match workspaceFolder with
        | Some _ =>
            [ mkTextDocumentFilter (lit "file") (languageId ws)
                                   (globFromUri uri (lit "/**/*")) ]
        | None =>
            [ mkTextDocumentFilter (uri_scheme uri) (languageId ws)
                                   (globFromUri uri (lit "")) ]
        end in
      let config := getConfiguration ws uri in
      Some (mkClientSetup documentSelector workspaceFolder
                          (enableCodeLens config) command args)
  end.

End Lsp.

(* ================================================================== *)
(** * [client.ts]: shapes of trees, plans and logs *)
(* ================================================================== *)

Module TreeSpec.
Import Js Client.

(** A test below a package: it has a parent and no children. *)
Definition leaf (t : TestItem) : Prop :=
  parent t <> None /\ children t = [].

(** An item as [#createTests] makes them: a leaf, or an item whose
    children are leaves. *)
Definition flat (t : TestItem) : Prop :=
  (parent t <> None -> children t = []) /\ Forall leaf (children t).

(** A package as [#createTests] leaves it in the controller. *)
Definition package_item (pkg : TestItem) : Prop :=
  parent pkg = None /\
  Forall (fun ch => parent ch = Some (handle pkg) /\ children ch = [])
         (children pkg).

Definition two_level (c : TestController) : Prop :=
  Forall package_item (items c).

(** An item of the tree of the controller: a package, or an item below
    one. *)
Definition tree_node (c : TestController) (t : TestItem) : Prop :=
  In t (items c) \/ exists pkg, In pkg (items c) /\ descends pkg t.

(** [t] lies below a package of the controller that the request
    excludes. *)
Definition below_excluded (c : TestController) (request : TestRunRequest)
           (t : TestItem) : Prop :=
  exists E, In E (items c) /\ excluded request E = true /\ descends E t.

(** Ids are unique among the packages and among the tests of each. *)
Definition unique_ids (c : TestController) : Prop :=
  List.NoDup (map id (items c)) /\
  Forall (fun pkg => List.NoDup (map id (children pkg))) (items c).

(** The last test of a notification that carries the id [i]. *)
Definition last_with_id (i : JsString) (ts : list NargoTest) : option NargoTest :=
  find (fun t => bool_decide (test_id t = i)) (rev ts).

(** The requests one queued item leads to: none when it is excluded,
    itself when it has a parent, and otherwise its children that are not
    excluded, last child first. *)
Definition plan_item (request : TestRunRequest) (t : TestItem) : list TestItem :=
  if excluded request t then []
  else
    match parent t with
    | Some _ => [t]
    | None =>
        List.filter (fun ch => negb (excluded request ch)) (rev (children t))
    end.

(** The requests a queue leads to, last entry first. *)
Definition plan (request : TestRunRequest) (queue : list TestItem)
  : list TestItem :=
  flat_map (plan_item request) (rev queue).

(** The package item the [forEach] of [#createTests] makes of [pkg]
    when the host hands out the handles [n], [n + 1], ... *)
Fixpoint built (ts : list NargoTest) (pkg : TestItem) (n : nat) : TestItem :=
  match ts with
  | [] => pkg
  | test :: ts' =>
      let item := mkTestItem n (test_id test) (test_label test)
                             (Some (test_uri test)) None None [] in
      built ts' (add_child (set_range (test_range test) item) pkg) (S n)
  end.

(** The item [#createTests] starts a package from. *)
Definition fresh_package (testData : NargoTests) (c : TestController) : TestItem :=
  mkTestItem (next_handle c) (package testData) (package testData)
             None None None [].

(** The controller a method leaves behind, however it completes. *)
Definition controller_of (r : Completion) : TestController :=
  match r with
  | Normal c | TypeError c => c
  end.

(** A server that never cancels and answers every request. *)
Definition calm {World : Type} (server : Server World) : Prop :=
  (forall w, isCancellationRequested server w = false) /\
  (forall w i, exists w' r, sendRequest server w i = (w', inl r)).

(** What the log holds for one request: the request alone (the answer
    was neither pass, fail nor error), or the request and its report. *)
Inductive report : list RunEvent -> Prop :=
| report_none t : report [Requested t]
| report_passed t : report [Requested t; Passed t]
| report_failed t m : report [Requested t; Failed t m].

Inductive reports : list RunEvent -> Prop :=
| reports_nil : reports []
| reports_snoc l b : reports l -> report b -> reports (l ++ b).

End TreeSpec.

(* ================================================================== *)
(** * Sample inputs *)
(* ================================================================== *)

Module Examples.
Import Js Value Output Host.

(** A Noir file open in the editor, no [nargoPath] setting, and the
    package root [/proj] above the file. *)
Definition host_noir : Host :=
  mkHost (Some (mkTextDocument (lit "noir") (lit "/proj/src/main.nr")))
         None (lit "nargo") (fun _ => str "/proj").

Definition channel_empty : OutputChannel := mkOutputChannel [] false.

(** The empty configuration the editor passes without a launch file. *)
Definition config_empty : JsObject := ∅.

(** A configuration that asks to attach. *)
Definition config_attach : JsObject := {[ "request" := str "attach" ]}.

(** A configuration with a project folder of its own. *)
Definition config_folder : JsObject := {[ "projectFolder" := str "/other" ]}.

Definition child_ok : ChildRun := mkChildRun [] (Some 0%Z).
Definition child_failed : ChildRun :=
  mkChildRun [list_byte_of_string "error: main.nr"] (Some 1%Z).

Import Client.

Definition range0 : Range := mkRange 0 0 0 0.
Definition test_T1 : NargoTest :=
  mkNargoTest (lit "T1") (lit "test_one") (lit "file:///proj/src/main.nr") range0.
Definition test_T2 : NargoTest :=
  mkNargoTest (lit "T2") (lit "test_two") (lit "file:///proj/src/main.nr") range0.
Definition test_T3 : NargoTest :=
  mkNargoTest (lit "T3") (lit "test_three") (lit "file:///proj/src/main.nr") range0.

(** Package [A] with the tests [T1] and [T2], then with [T3] alone. *)
Definition snapshot_A : NargoTests :=
  mkNargoTests (lit "A") (lit "file:///proj") (Some [test_T1; test_T2]).
Definition snapshot_A' : NargoTests :=
  mkNargoTests (lit "A") (lit "file:///proj") (Some [test_T3]).

Definition controller_empty : TestController := mkTestController [] 0 true [].

(** The items [#createTests] builds for [snapshot_A]. *)
Definition item_T1 : TestItem :=
  mkTestItem 1 (lit "T1") (lit "test_one") (Some (lit "file:///proj/src/main.nr"))
             (Some range0) (Some 0) [].
Definition item_T2 : TestItem :=
  mkTestItem 2 (lit "T2") (lit "test_two") (Some (lit "file:///proj/src/main.nr"))
             (Some range0) (Some 0) [].
Definition item_A : TestItem :=
  mkTestItem 0 (lit "A") (lit "A") None None None [item_T1; item_T2].
Definition controller_A : TestController := mkTestController [item_A] 3 true [].

(** A server that passes every test, and no cancellation. *)
Definition server_pass : Server unit :=
  mkServer unit (fun _ => false)
           (fun w i => (w, inl (mkRunTestResult i pass []))).

Definition run_all : TestRunRequest := mkTestRunRequest None None.
Definition run_A : TestRunRequest := mkTestRunRequest (Some [item_A]) None.


(** Run [A] and [T1], with [A] excluded. *)
Definition run_T1_without_A : TestRunRequest :=
  mkTestRunRequest (Some [item_A; item_T1]) (Some [item_A]).

End Examples.

(* ================================================================== *)
(** * More sample inputs *)
(* ================================================================== *)

Module Samples.
Import Js Value Lsp Client.

(** A folder on Windows and one elsewhere. *)
Definition uri_windows : Uri := mkUri (lit "C:\proj\noir") (lit "file").
Definition uri_posix : Uri := mkUri (lit "/home/proj") (lit "file").

(** The language server enabled, with flags spaced carelessly. *)
Definition workspace_flags : Workspace :=
  mkWorkspace (fun _ => mkSettings (Some true) (Some (lit " --foo  --bar ")) None)
              (fun _ => lit "nargo") (lit "noir") (lit "Noir Language Server").

(** The language server switched off. *)
Definition workspace_off : Workspace :=
  mkWorkspace (fun _ => mkSettings (Some false) None None)
              (fun _ => lit "nargo") (lit "noir") (lit "Noir Language Server").

(** Package [B] with one test, and a notification without tests. *)
Definition test_U1 : NargoTest :=
  mkNargoTest (lit "U1") (lit "test_u") (lit "file:///proj/src/lib.nr")
              Examples.range0.
Definition snapshot_B : NargoTests :=
  mkNargoTests (lit "B") (lit "file:///proj") (Some [test_U1]).
Definition snapshot_bad : NargoTests :=
  mkNargoTests (lit "C") (lit "file:///proj") None.

(** A notification for package [A] that leaves the optional [tests]
    out. *)
Definition snapshot_A_bare : NargoTests :=
  mkNargoTests (lit "A") (lit "file:///proj") None.

(** Run [A] but not its test [T1]. *)
Definition run_A_without_T1 : TestRunRequest :=
  mkTestRunRequest (Some [Examples.item_A]) (Some [Examples.item_T1]).

(** The test [T1] sent twice under one id, with two labels. *)
Definition test_T1' : NargoTest :=
  mkNargoTest (lit "T1") (lit "test_one_again") (lit "file:///proj/src/main.nr")
              Examples.range0.
Definition snapshot_twice : NargoTests :=
  mkNargoTests (lit "A") (lit "file:///proj")
               (Some [Examples.test_T1; Examples.test_T2; test_T1']).

(** A server that rejects every request. *)
Definition server_down : Server unit :=
  mkServer unit (fun _ => false) (fun w i => (w, inr (lit "connection lost"))).

(** A run cancelled while its first request is under way: the state is
    whether the token is cancelled. *)
Definition server_cancel_during : Server bool :=
  mkServer bool (fun w => w)
           (fun w i => (true, inl (mkRunTestResult i pass []))).

(** A token cancelled from the start. *)
Definition server_cancelled : Server unit :=
  mkServer unit (fun _ => true)
           (fun w i => (w, inl (mkRunTestResult i pass []))).

End Samples.

(* ================================================================== *)
(** * Properties *)
(* ================================================================== *)

(** ** The sanitizer: what it lets through *)

Module SanitizerTheory.
Import Js Regex Output.

Lemma printable_allowed c : printable c = true <-> allowed c.
Proof.
  unfold printable, range, in_range, allowed.
  change (code " ") with 32%Z. change (code "~") with 126%Z.
  rewrite !orb_true_iff, andb_true_iff, !Z.leb_le, !Z.eqb_eq. lia.
Qed.

Lemma exec_Class p c s :
  exec (Class p) (c :: s) = if p c then Some 1 else None.
Proof.
  unfold exec; simpl. destruct (p c); [|reflexivity].
  f_equal. lia.
Qed.

(** Deleting the matches of a one-unit class keeps the other units. *)
Lemma replace_global_Class p s :
  replace_global (Class p) s = List.filter (fun c => negb (p c)) s.
Proof.
  unfold replace_global.
  induction s as [|c s IH]; [reflexivity|].
  cbn [replace_from List.filter]. rewrite exec_Class.
  destruct (p c); simpl; rewrite IH; reflexivity.
Qed.

Lemma exec_re_ansi_no_ESC c s : c <> ESC -> exec re_ansi (c :: s) = None.
Proof.
  intros Hc. unfold exec, re_ansi. cbn [rmatch].
  destruct (Z.eqb_spec c ESC); [contradiction|reflexivity].
Qed.

Lemma replace_global_ansi_no_ESC s :
  Forall (fun c => c <> ESC) s -> replace_global re_ansi s = s.
Proof.
  unfold replace_global. induction 1 as [|c s Hc _ IH]; [reflexivity|].
  cbn [replace_from]. rewrite (exec_re_ansi_no_ESC _ _ Hc), IH. reflexivity.
Qed.

Lemma allowed_not_ESC c : allowed c -> c <> ESC.
Proof. unfold allowed, ESC. lia. Qed.

Lemma sanitize_allowed s : Forall allowed (sanitize s).
Proof.
  unfold sanitize, re_non_printable. rewrite replace_global_Class.
  apply List.Forall_forall. intros c Hc. apply filter_In in Hc as [_ Hc].
  apply printable_allowed. now apply negb_true_iff, negb_false_iff in Hc.
Qed.

Lemma sanitize_clean s : Forall allowed s -> sanitize s = s.
Proof.
  intros Hs. unfold sanitize, re_non_printable.
  rewrite replace_global_ansi_no_ESC
    by (eapply List.Forall_impl; [|exact Hs]; apply allowed_not_ESC).
  rewrite replace_global_Class.
  induction Hs as [|c s Hc _ IH]; [reflexivity|].
  cbn [List.filter]. apply printable_allowed in Hc. rewrite Hc, IH. reflexivity.
Qed.

(** UTF-8 decoding of ASCII bytes gives the bytes. *)
Lemma utf8_decode_ascii bytes :
  Forall (fun b => 0 <= b <= 127)%Z bytes ->
  flat_map utf16_units (utf8_decode None bytes) = bytes.
Proof.
  induction 1 as [|b bs Hb _ IH]; [reflexivity|].
  cbn [utf8_decode utf8_step]. unfold utf8_lead, in_range.
  destruct (Z.leb_spec 0 b); [|lia]. destruct (Z.leb_spec b 127); [|lia].
  cbn [andb app flat_map]. rewrite IH. unfold utf16_units.
  destruct (Z.ltb_spec b 65536); [reflexivity|lia].
Qed.

Lemma toString_ascii (buffer : Buffer) :
  Forall (fun b => allowed (byte_val b)) buffer ->
  toString buffer = map byte_val buffer.
Proof.
  intros H. unfold toString. apply utf8_decode_ascii.
  apply Forall_map. eapply List.Forall_impl; [|exact H].
  intros b. unfold allowed. simpl. lia.
Qed.

(** C6. Whatever bytes the child process writes, the text the
    sanitizer hands to the output channel holds only tab, newline and
    the characters from space to tilde; that text is the line
    [preflightCheckPrinter] appends. *)
Theorem C6_sanitizer_output_printable (buffer : Buffer) (output : OutputChannel) :
  Forall allowed (formattedOutput buffer) /\
  lines (preflightCheckPrinter buffer output)
    = lines output ++ [formattedOutput buffer].
Proof.
  split; [apply sanitize_allowed | reflexivity].
Qed.

(** C7. On a string made only of tab, newline and the characters from
    space to tilde the sanitizer changes nothing.  Such a string holds
    no escape sequence (ESC is not among these characters), so nothing
    more is asked of it.  The same holds from the bytes on, and the
    sanitizer is idempotent on every string. *)
Theorem C7_sanitizer_identity_on_clean :
  (forall s : JsString,
      Forall allowed s ->
      (forall i, exec re_ansi (drop i s) = None) /\ sanitize s = s) /\
  (forall buffer : Buffer,
      Forall (fun b => allowed (byte_val b)) buffer ->
      formattedOutput buffer = map byte_val buffer) /\
  (forall s : JsString, sanitize (sanitize s) = sanitize s).
Proof.
  split; [|split].
  - intros s Hs. split; [|now apply sanitize_clean].
    intros i. assert (Hd : Forall allowed (drop i s)) by now apply Forall_drop.
    destruct Hd as [|c s' Hc _]; [reflexivity|].
    apply exec_re_ansi_no_ESC, allowed_not_ESC, Hc.
  - intros buffer Hb. unfold formattedOutput.
    rewrite (toString_ascii _ Hb). apply sanitize_clean.
    now apply Forall_map.
  - intros s. apply sanitize_clean, sanitize_allowed.
Qed.

Lemma C7_witness :
  Forall allowed (lit "ok: 3 tests") /\
  sanitize (lit "ok: 3 tests") = lit "ok: 3 tests".
Proof.
  assert (H : Forall allowed (lit "ok: 3 tests")).
  { apply List.Forall_forall. intros c Hc. apply printable_allowed.
    revert c Hc. apply forallb_forall. reflexivity. }
  split; [exact H|].
  apply (proj1 C7_sanitizer_identity_on_clean (lit "ok: 3 tests") H).
Defined.

End SanitizerTheory.

(** ** The launcher *)

Module DebuggerTheory.
Import Js Value Output Host.

Lemma noir_document_editor h doc :
  noir_document h = Some doc -> activeTextEditor h = Some doc.
Proof.
  unfold noir_document. destruct (activeTextEditor h) as [d|]; [|discriminate].
  destruct (jsstring_eqb _ _); [congruence|discriminate].
Qed.

(** The test of [projectFolder] in the source is the test for truth:
    the empty string is already false. *)
Lemma projectFolder_given_truthy config :
  Debugger.projectFolder_given config = truthy (get config "projectFolder").
Proof.
  unfold Debugger.projectFolder_given, js_and.
  destruct (get config "projectFolder") as [| |[]|n|s|r p]; simpl; try reflexivity.
  - destruct (Z.eqb_spec n 0); subst; reflexivity.
  - unfold str, lit; simpl.
    destruct (jsstring_eqb s []) eqn:E; simpl; rewrite ?E; reflexivity.
Qed.

(** When the current revision spawns the child, a Noir document is
    open, the child gets [preflightArgs], and the call goes on with
    [preflightCheckMonitor]. *)
Lemma spawn_inv h out config command args k :
  Debugger.resolveDebugConfiguration h out config = Spawn command args k ->
  exists doc,
    activeTextEditor h = Some doc /\
    command = nargoPath h /\
    args = Debugger.preflightArgs
             (Debugger.resolvedConfig h (fsPath doc) config) config /\
    k = preflightCheckMonitor
          (Debugger.resolvedConfig h (fsPath doc) config) (announce h out).
Proof.
  unfold Debugger.resolveDebugConfiguration.
  destruct (noir_document h) as [doc|] eqn:E; [|discriminate].
  intros [= <- <- <-]. exists doc. auto using noir_document_editor.
Qed.

Lemma spawn_inv_v1 h out config command args k :
  DebuggerV1.resolveDebugConfiguration h out config = Spawn command args k ->
  exists doc,
    activeTextEditor h = Some doc /\
    command = nargoPath h /\
    args = DebuggerV1.preflightArgs (findNearestPackageFrom h (fsPath doc)) /\
    k = preflightCheckMonitor
          (DebuggerV1.launchConfig (fsPath doc)
             (findNearestPackageFrom h (fsPath doc))) (announce h out).
Proof.
  unfold DebuggerV1.resolveDebugConfiguration.
  destruct (_ || _); [discriminate|].
  destruct (noir_document h) as [doc|] eqn:E; [|discriminate].
  intros [= <- <- <-]. exists doc. auto using noir_document_editor.
Qed.

Lemma monitor_exit_zero resolved out run :
  exit_code run = Some 0%Z ->
  exists out', preflightCheckMonitor resolved out run = (Returned resolved, out').
Proof.
  intros E. unfold preflightCheckMonitor. rewrite E. simpl. eauto.
Qed.

Lemma show_visible out : visible (show out) = true.
Proof. reflexivity. Qed.

Lemma monitor_exit_nonzero resolved out run :
  exit_code run <> Some 0%Z ->
  exists out',
    preflightCheckMonitor resolved out run = (Thrown launch_error, out') /\
    visible out' = true.
Proof.
  intros E. unfold preflightCheckMonitor.
  assert (Hz : loose_eq_zero (exit_code run) = false).
  { destruct (exit_code run) as [c|]; [|reflexivity]. simpl.
    destruct (Z.eqb_spec c 0); [subst; contradiction|reflexivity]. }
  rewrite Hz. simpl. eexists. split; [reflexivity|apply show_visible].
Qed.

(** C1. When the launcher has spawned the pre-flight child and the
    child exits with code 0, the launcher returns a configuration;
    its [program] is the path of the file in the active editor, and
    its [projectFolder] is the one of the input configuration when that
    holds one (a value that counts as true: a non-empty string) and
    otherwise what [findNearestPackageFrom] gives for that path. *)
Theorem C1_success_program_and_projectFolder
        h out config command args k run :
  Debugger.resolveDebugConfiguration h out config = Spawn command args k ->
  exit_code run = Some 0%Z ->
  exists doc resolved out',
    activeTextEditor h = Some doc /\
    k run = (Returned resolved, out') /\
    get resolved "program" = JString (fsPath doc) /\
    (truthy (get config "projectFolder") = true ->
     get resolved "projectFolder" = get config "projectFolder") /\
    (truthy (get config "projectFolder") = false ->
     get resolved "projectFolder" = findNearestPackageFrom h (fsPath doc)).
Proof.
  intros Hs He. apply spawn_inv in Hs as (doc & Hdoc & _ & _ & ->).
  destruct (monitor_exit_zero (Debugger.resolvedConfig h (fsPath doc) config)
              (announce h out) run He) as [out' Hk].
  exists doc, (Debugger.resolvedConfig h (fsPath doc) config), out'.
  repeat split; try assumption.
  - intros Ht. change (get (Debugger.resolvedConfig h (fsPath doc) config) "projectFolder")
      with (if Debugger.projectFolder_given config
            then get config "projectFolder"
            else findNearestPackageFrom h (fsPath doc)).
    now rewrite projectFolder_given_truthy, Ht.
  - intros Ht. change (get (Debugger.resolvedConfig h (fsPath doc) config) "projectFolder")
      with (if Debugger.projectFolder_given config
            then get config "projectFolder"
            else findNearestPackageFrom h (fsPath doc)).
    now rewrite projectFolder_given_truthy, Ht.
Qed.

Lemma C1_witness :
  exists command args k,
    Debugger.resolveDebugConfiguration
      Examples.host_noir Examples.channel_empty Examples.config_folder
    = Spawn command args k /\
    exit_code Examples.child_ok = Some 0%Z /\
    exists doc resolved out',
      activeTextEditor Examples.host_noir = Some doc /\
      k Examples.child_ok = (Returned resolved, out') /\
      get resolved "program" = JString (fsPath doc) /\
      (truthy (get Examples.config_folder "projectFolder") = true ->
       get resolved "projectFolder" = get Examples.config_folder "projectFolder") /\
      (truthy (get Examples.config_folder "projectFolder") = false ->
       get resolved "projectFolder"
       = findNearestPackageFrom Examples.host_noir (fsPath doc)).
Proof.
  eexists _, _, _. split; [reflexivity|]. split; [reflexivity|].
  eapply (C1_success_program_and_projectFolder
            Examples.host_noir Examples.channel_empty Examples.config_folder
            _ _ _ Examples.child_ok); reflexivity.
Defined.

(** C2. When the launcher has spawned the pre-flight child and the
    child does not exit with code 0 (a non-zero code, or none because a
    signal ended it), the launcher shows the output channel and throws;
    it returns no configuration.  Both revisions. *)
Theorem C2_nonzero_exit_throws :
  (forall h out config command args k run,
      Debugger.resolveDebugConfiguration h out config = Spawn command args k ->
      exit_code run <> Some 0%Z ->
      exists out', k run = (Thrown launch_error, out') /\ visible out' = true) /\
  (forall h out config command args k run,
      DebuggerV1.resolveDebugConfiguration h out config = Spawn command args k ->
      exit_code run <> Some 0%Z ->
      exists out', k run = (Thrown launch_error, out') /\ visible out' = true).
Proof.
  split; intros h out config command args k run Hs He.
  - apply spawn_inv in Hs as (doc & _ & _ & _ & ->).
    now apply monitor_exit_nonzero.
  - apply spawn_inv_v1 in Hs as (doc & _ & _ & _ & ->).
    now apply monitor_exit_nonzero.
Qed.

Lemma C2_witness :
  (exists command args k,
      Debugger.resolveDebugConfiguration
        Examples.host_noir Examples.channel_empty Examples.config_empty
      = Spawn command args k /\
      exit_code Examples.child_failed <> Some 0%Z /\
      exists out', k Examples.child_failed = (Thrown launch_error, out') /\
                   visible out' = true) /\
  (exists command args k,
      DebuggerV1.resolveDebugConfiguration
        Examples.host_noir Examples.channel_empty Examples.config_empty
      = Spawn command args k /\
      exit_code Examples.child_failed <> Some 0%Z /\
      exists out', k Examples.child_failed = (Thrown launch_error, out') /\
                   visible out' = true).
Proof.
  split; eexists _, _, _.
  - split; [reflexivity|]. split; [discriminate|].
    eapply (proj1 C2_nonzero_exit_throws
              Examples.host_noir Examples.channel_empty Examples.config_empty);
      [reflexivity|discriminate].
  - split; [reflexivity|]. split; [discriminate|].
    eapply (proj2 C2_nonzero_exit_throws
              Examples.host_noir Examples.channel_empty Examples.config_empty);
      [reflexivity|discriminate].
Defined.

(** C3. When the resolved configuration has [projectFolder] ['/proj'],
    [proverName] ['Prover'], the empty [package], and [generateAcir] and
    [skipInstrumentation] both [false], the child is spawned with
    exactly the six arguments below: no package flag, no generate-acir
    flag, no skip-instrumentation flag. *)
Theorem C3_preflight_args h out config doc command args k :
  activeTextEditor h = Some doc ->
  get (Debugger.resolvedConfig h (fsPath doc) config) "projectFolder" = str "/proj" ->
  get (Debugger.resolvedConfig h (fsPath doc) config) "proverName" = str "Prover" ->
  get (Debugger.resolvedConfig h (fsPath doc) config) "package" = str "" ->
  get (Debugger.resolvedConfig h (fsPath doc) config) "generateAcir" = JBool false ->
  get (Debugger.resolvedConfig h (fsPath doc) config) "skipInstrumentation" = JBool false ->
  Debugger.resolveDebugConfiguration h out config = Spawn command args k ->
  args = [ str "dap"; str "--preflight-check"; str "--preflight-project-folder";
           str "/proj"; str "--preflight-prover-name"; str "Prover" ].
Proof.
  intros Hdoc Hf Hp Hk Hg Hi Hs.
  apply spawn_inv in Hs as (doc' & Hdoc' & _ & -> & _).
  assert (doc' = doc) by congruence. subst doc'.
  unfold Debugger.preflightArgs. rewrite Hf, Hp, Hk, Hg, Hi. reflexivity.
Qed.

Lemma C3_witness :
  exists command k,
    Debugger.resolveDebugConfiguration
      Examples.host_noir Examples.channel_empty Examples.config_empty
    = Spawn command
            [ str "dap"; str "--preflight-check"; str "--preflight-project-folder";
              str "/proj"; str "--preflight-prover-name"; str "Prover" ] k.
Proof.
  assert (Hs : exists command args k,
             Debugger.resolveDebugConfiguration
               Examples.host_noir Examples.channel_empty Examples.config_empty
             = Spawn command args k) by (eexists _, _, _; reflexivity).
  destruct Hs as (command & args & k & Hs).
  exists command, k. rewrite Hs. f_equal.
  eapply (C3_preflight_args Examples.host_noir Examples.channel_empty
            Examples.config_empty _ command args k);
    [reflexivity|reflexivity|reflexivity|reflexivity|reflexivity|reflexivity|exact Hs].
Defined.

Lemma resolved_overridable h doc config field :
  In field Debugger.overridable ->
  get (Debugger.resolvedConfig h (fsPath doc) config) field
  = if truthy (get config field) then get config field else Debugger.default_of h doc field.
Proof.
  intros Hf. pose proof (projectFolder_given_truthy config) as Hpf.
  simpl in Hf. repeat (destruct Hf as [<-|Hf]); try contradiction;
    try reflexivity.
  change (get (Debugger.resolvedConfig h (fsPath doc) config) "projectFolder")
    with (if Debugger.projectFolder_given config
          then get config "projectFolder"
          else findNearestPackageFrom h (fsPath doc)).
  rewrite Hpf. reflexivity.
Qed.

(** C9, as the code has it.  The returned configuration takes, for
    [type], [name], [projectFolder], [package], [proverName],
    [generateAcir] and [skipInstrumentation], the value of the input
    configuration when that value counts as true, and the computed
    default otherwise; [request] is ['launch'] and [program] is the path
    of the current file whatever the input configuration holds. *)
Theorem C9_overrides_over_defaults h out config command args k run :
  Debugger.resolveDebugConfiguration h out config = Spawn command args k ->
  exit_code run = Some 0%Z ->
  exists doc resolved out',
    activeTextEditor h = Some doc /\
    k run = (Returned resolved, out') /\
    (forall field, In field Debugger.overridable ->
       truthy (get config field) = true ->
       get resolved field = get config field) /\
    (forall field, In field Debugger.overridable ->
       truthy (get config field) = false ->
       get resolved field = Debugger.default_of h doc field) /\
    get resolved "request" = str "launch" /\
    get resolved "program" = JString (fsPath doc).
Proof.
  intros Hs He. apply spawn_inv in Hs as (doc & Hdoc & _ & _ & ->).
  destruct (monitor_exit_zero (Debugger.resolvedConfig h (fsPath doc) config)
              (announce h out) run He) as [out' Hk].
  exists doc, (Debugger.resolvedConfig h (fsPath doc) config), out'.
  split; [assumption|]. split; [assumption|].
  split; [|split; [|split; reflexivity]].
  - intros field Hf Ht. rewrite (resolved_overridable _ _ _ _ Hf), Ht. reflexivity.
  - intros field Hf Ht. rewrite (resolved_overridable _ _ _ _ Hf), Ht. reflexivity.
Qed.

Lemma C9_witness :
  exists command args k,
    Debugger.resolveDebugConfiguration
      Examples.host_noir Examples.channel_empty Examples.config_folder
    = Spawn command args k /\
    exists resolved out',
      k Examples.child_ok = (Returned resolved, out') /\
      get resolved "projectFolder" = str "/other" /\
      get resolved "proverName" = str "Prover" /\
      get resolved "request" = str "launch".
Proof.
  eexists _, _, _. split; [reflexivity|].
  destruct (C9_overrides_over_defaults
              Examples.host_noir Examples.channel_empty Examples.config_folder
              _ _ _ Examples.child_ok eq_refl eq_refl)
    as (doc & resolved & out' & Hdoc & Hk & Hset & Hdef & Hreq & _).
  exists resolved, out'. split; [exact Hk|].
  injection Hdoc as <-.
  split; [|split; [|exact Hreq]].
  - apply (Hset "projectFolder"); [simpl; tauto|reflexivity].
  - apply (Hdef "proverName"); [simpl; tauto|reflexivity].
Defined.

(** C9 as the specification words it fails for [request] (and for
    [program]): an input configuration that supplies [request:
    'attach'] gets [request: 'launch'] back. *)
Lemma C9_counterexample_request :
  Examples.config_attach !! "request" = Some (str "attach") /\
  exists command args k resolved out',
    Debugger.resolveDebugConfiguration
      Examples.host_noir Examples.channel_empty Examples.config_attach
    = Spawn command args k /\
    k Examples.child_ok = (Returned resolved, out') /\
    resolved !! "request" = Some (str "launch") /\
    resolved !! "request" <> Examples.config_attach !! "request".
Proof.
  split; [reflexivity|].
  eexists _, _, _, _, _. split; [reflexivity|]. split; [reflexivity|].
  split; [reflexivity|]. vm_compute. discriminate.
Qed.

End DebuggerTheory.

(** ** The test tree *)

Module ClientTheory.
Import Js Client.

Lemma push_all_app l q : push_all l q = q ++ l.
Proof.
  unfold push_all. revert q.
  induction l as [|t l IH]; intros q; simpl; [now rewrite app_nil_r|].
  unfold push at 2. rewrite IH, <- app_assoc. reflexivity.
Qed.

Lemma pop_push q t : pop (push q t) = Some (t, q).
Proof.
  unfold pop, push. rewrite rev_app_distr. simpl. now rewrite rev_involutive.
Qed.

Lemma pop_Some q t q' : pop q = Some (t, q') -> q = q' ++ [t].
Proof.
  unfold pop. destruct (rev q) as [|x r] eqn:E; [discriminate|].
  intros [= <- <-]. rewrite <- (rev_involutive q), E. reflexivity.
Qed.

Lemma total_weight_app l l' :
  total_weight (l ++ l') = total_weight l + total_weight l'.
Proof.
  unfold total_weight. induction l as [|t l IH]; simpl; [reflexivity|].
  rewrite IH. lia.
Qed.

Lemma weight_children t : weight t = S (total_weight (children t)).
Proof.
  destruct t as [h i l u r p ch]. reflexivity.
Qed.

Lemma requested_app l l' : requested (l ++ l') = requested l ++ requested l'.
Proof. unfold requested. apply flat_map_app. Qed.

Section Run.
Context {World : Type} (server : Server World) (request : TestRunRequest).

(** The fuel [#runTest] is given is enough: the loop ends. *)
Lemma run_loop_ends fuel queue w log :
  total_weight queue < fuel ->
  run_loop server fuel request queue w log <> OutOfFuel.
Proof.
  revert queue w log.
  induction fuel as [|fuel IH]; intros queue w log Hf; [lia|].
  cbn [run_loop].
  destruct ((0 <? length queue)%nat && negb (isCancellationRequested server w));
    [|discriminate].
  destruct (pop queue) as [[test queue']|] eqn:Hpop; [|discriminate].
  apply pop_Some in Hpop. subst queue.
  rewrite total_weight_app in Hf. simpl in Hf.
  rewrite weight_children in Hf.
  assert (Hpush : total_weight (push_all (children test) queue') < fuel)
    by (rewrite push_all_app, total_weight_app; lia).
  destruct (excluded request test); [apply IH; lia|].
  destruct (parent test); [|now apply IH].
  destruct (sendRequest server w (id test)) as [w' [r|reason]]; [|discriminate].
  destruct (result r); apply IH; solve [lia | assumption].
Qed.

Lemma runTest_ends c w : runTest server request c w <> OutOfFuel.
Proof. unfold runTest. apply run_loop_ends. lia. Qed.

(** An invariant of the loop: [Q] holds of the queued items and [R]
    of the requested ones. *)
Section Invariant.
Variables Q R : TestItem -> Prop.
Hypothesis request_ok :
  forall t, Q t -> excluded request t = false -> parent t <> None -> R t.
Hypothesis children_ok :
  forall t c, Q t -> excluded request t = false -> In c (children t) -> Q c.

Lemma run_loop_requested fuel queue w log :
  Forall Q queue -> Forall R (requested log) ->
  Forall R (requested (log_of (run_loop server fuel request queue w log))).
Proof using request_ok children_ok.
  revert queue w log.
  induction fuel as [|fuel IH]; intros queue w log Hq Hl; [constructor|].
  cbn [run_loop].
  destruct ((0 <? length queue)%nat && negb (isCancellationRequested server w)).
  2:{ simpl. rewrite requested_app, app_nil_r. exact Hl. }
  destruct (pop queue) as [[test queue']|] eqn:Hpop.
  2:{ simpl. rewrite requested_app, app_nil_r. exact Hl. }
  apply pop_Some in Hpop. subst queue.
  apply Forall_app in Hq as [Hq' Ht]. inversion Ht as [|? ? Hqt _]; subst.
  destruct (excluded request test) eqn:Hex; [now apply IH|].
  assert (Hpush : Forall Q (push_all (children test) queue')).
  { rewrite push_all_app. apply Forall_app. split; [assumption|].
    apply List.Forall_forall. intros c Hc. eapply children_ok; eassumption. }
  destruct (parent test) as [p|] eqn:Hp; [|now apply IH].
  assert (HR : R test) by (apply request_ok; [assumption..|congruence]).
  assert (Hl' : Forall R (requested (log ++ [Requested test]))).
  { rewrite requested_app. apply Forall_app. split; [assumption|].
    simpl. now constructor. }
  destruct (sendRequest server w (id test)) as [w' [r|reason]]; [|exact Hl'].
  destruct (result r); apply IH; try assumption;
    rewrite requested_app, app_nil_r; exact Hl'.
Qed.
End Invariant.

Lemma push_nonempty queue test : (0 <? length (push queue test))%nat = true.
Proof. unfold push. rewrite length_app. simpl. apply Nat.ltb_lt. lia. Qed.

(** One turn of the loop, by the kind of the item on top. *)
Lemma run_loop_done fuel w log :
  run_loop server (S fuel) request [] w log = Finished w (log ++ [Ended]).
Proof. reflexivity. Qed.


Lemma run_loop_expand fuel queue test w log :
  isCancellationRequested server w = false ->
  excluded request test = false ->
  parent test = None ->
  run_loop server (S fuel) request (push queue test) w log
  = run_loop server fuel request (push_all (children test) queue) w log.
Proof.
  intros Hc He Hp. cbn [run_loop].
  rewrite push_nonempty, Hc, pop_push, He, Hp. reflexivity.
Qed.

Lemma run_loop_leaf fuel queue test w log w' r :
  isCancellationRequested server w = false ->
  excluded request test = false ->
  parent test <> None ->
  children test = [] ->
  sendRequest server w (id test) = (w', inl r) ->
  exists log',
    run_loop server (S fuel) request (push queue test) w log
    = run_loop server fuel request queue w' log' /\
    requested log' = requested log ++ [test].
Proof.
  intros Hc He Hp Hch Hs. cbn [run_loop].
  rewrite push_nonempty, Hc, pop_push, He, Hs, Hch.
  destruct (parent test); [|contradiction].
  cbn [andb negb push_all fold_left].
  destruct (result r); eexists; (split; [reflexivity|]);
    rewrite ?requested_app; simpl; rewrite ?app_nil_r; reflexivity.
Qed.

End Run.

Lemma reaches_start request q t :
  reaches request q t -> q = t \/ excluded request q = false.
Proof.
  induction 1 as [|q t c _ IH He _]; [now left|].
  right. destruct IH as [->|IH]; assumption.
Qed.

Lemma handles_children t :
  handles t = handle t :: flat_map handles (children t).
Proof. destruct t as [h i l u r p ch]. reflexivity. Qed.

Lemma in_flat_map_handles c l h :
  In c l -> In h (handles c) -> In h (flat_map handles l).
Proof. intros Hc Hh. apply in_flat_map. eauto. Qed.

Lemma descends_handles a t :
  descends a t -> In (handle t) (flat_map handles (children a)).
Proof.
  induction 1 as [a c Hc|a c t Hc _ IH].
  - apply (in_flat_map_handles c); [assumption|].
    rewrite handles_children. now left.
  - apply (in_flat_map_handles c); [assumption|].
    rewrite handles_children. now right.
Qed.

Lemma child_weight a c : In c (children a) -> weight c < weight a.
Proof.
  rewrite (weight_children a). generalize (children a). intros l.
  induction l as [|x l IH]; simpl; [tauto|].
  intros [->|H]; [lia|]. specialize (IH H). lia.
Qed.

Lemma descends_weight a t : descends a t -> weight t < weight a.
Proof.
  induction 1 as [a c Hc|a c t Hc _ IH]; apply child_weight in Hc; lia.
Qed.

Lemma descends_step a p t :
  descends a p -> In t (children p) -> descends a t.
Proof.
  induction 1 as [a c Hc|a c p Hc _ IH]; intros Ht.
  - eapply descends_deeper; [eassumption|]. now apply descends_child.
  - eapply descends_deeper; [eassumption|]. now apply IH.
Qed.

Lemma reaches_descends request q t :
  reaches request q t -> q = t \/ descends q t.
Proof.
  induction 1 as [|q p t _ IH _ Ht]; [now left|right].
  destruct IH as [->|IH]; [now apply descends_child|].
  eapply descends_step; eassumption.
Qed.

(** Two entries of a list of trees that share a handle are the same
    entry when no handle occurs twice. *)
Lemma distinct_trees_share l a b h :
  List.NoDup (flat_map handles l) ->
  In a l -> In b l -> In h (handles a) -> In h (handles b) -> a = b.
Proof.
  induction l as [|x l IH]; simpl; [tauto|].
  intros Hnd Ha Hb Hha Hhb.
  apply NoDup_app_remove_l in Hnd as Hl.
  assert (Hx : forall y, In y l -> In h (handles x) -> In h (handles y) -> False).
  { intros y Hy Hhx Hhy. clear IH Ha Hb.
    induction (handles x) as [|k ks IHk]; [contradiction|].
    simpl in Hnd. apply NoDup_cons_iff in Hnd as [Hk Hnd].
    destruct Hhx as [->|Hhx]; [|now apply IHk].
    apply Hk, in_or_app. right. eapply in_flat_map_handles; eassumption. }
  destruct Ha as [<-|Ha], Hb as [<-|Hb].
  - reflexivity.
  - exfalso. eapply Hx; eassumption.
  - exfalso. eapply Hx; eassumption.
  - now apply IH.
Qed.

(** *** Collections *)

Lemma coll_get_add item coll :
  coll_get (id item) (coll_add item coll) = Some item.
Proof.
  unfold coll_get. induction coll as [|t coll IH]; simpl.
  - unfold has_id. now rewrite bool_decide_eq_true_2.
  - destruct (has_id (id item) t) eqn:E; simpl.
    + unfold has_id. now rewrite bool_decide_eq_true_2.
    + rewrite E. exact IH.
Qed.

Lemma coll_add_ids item coll i :
  In i (map id (coll_add item coll)) <-> i = id item \/ In i (map id coll).
Proof.
  induction coll as [|t coll IH]; simpl; [intuition|].
  destruct (has_id (id item) t) eqn:E; simpl.
  - apply bool_decide_eq_true_1 in E. rewrite E. intuition.
  - rewrite IH. intuition.
Qed.

Lemma coll_add_Forall (P : TestItem -> Prop) item coll :
  P item -> Forall P coll -> Forall P (coll_add item coll).
Proof.
  intros Hi. induction 1 as [|t coll Ht Hc IH]; simpl; [now repeat constructor|].
  destruct (has_id (id item) t); constructor; assumption.
Qed.

Lemma coll_add_fresh item coll :
  ~ In (id item) (map id coll) -> coll_add item coll = coll ++ [item].
Proof.
  induction coll as [|t coll IH]; simpl; intros Hn; [reflexivity|].
  destruct (has_id (id item) t) eqn:E.
  - apply bool_decide_eq_true_1 in E. exfalso. apply Hn. now left.
  - f_equal. apply IH. intros H. apply Hn. now right.
Qed.

(** *** [#createTests] *)

Lemma createTest_step test pkg c :
  exists item,
    createTest test (pkg, c)
    = (set_children (coll_add item (children pkg)) pkg,
       mkTestController (items c) (S (next_handle c))
                        (supportsInvalidation c) (invalidated c)) /\
    handle item = next_handle c /\
    shows (handle pkg) item test.
Proof.
  eexists. split; [reflexivity|]. split; [reflexivity|].
  repeat split.
Qed.

(** What the [forEach] of [#createTests] leaves in the package item. *)
Lemma createTest_fold ts : forall pkg c,
  exists pkg' c',
    fold_left (fun st test => createTest test st) ts (pkg, c) = (pkg', c') /\
    handle pkg' = handle pkg /\ id pkg' = id pkg /\ parent pkg' = parent pkg /\
    items c' = items c /\
    (forall i, In i (map id (children pkg'))
               <-> In i (map id (children pkg)) \/ In i (map test_id ts)) /\
    (forall P : TestItem -> Prop,
        Forall P (children pkg) ->
        (forall item test, In test ts -> shows (handle pkg) item test ->
                           next_handle c <= handle item -> P item) ->
        Forall P (children pkg')) /\
    (List.NoDup (map test_id ts) ->
     (forall t, In t ts -> ~ In (test_id t) (map id (children pkg))) ->
     exists l, children pkg' = children pkg ++ l /\
               Forall2 (shows (handle pkg)) l ts).
Proof.
  induction ts as [|test ts IH]; intros pkg c.
  - exists pkg, c. repeat split; try tauto.
    + simpl. tauto.
    + intros _ _. exists []. split; [now rewrite app_nil_r|constructor].
  - cbn [fold_left].
    destruct (createTest_step test pkg c) as (item & -> & Hh & Hshow).
    match goal with
    | |- context [fold_left _ ts (?p, ?k)] =>
        destruct (IH p k) as (pkg' & c' & -> & Hhd & Hid & Hpar & Hit & Hids & Hall & Hnd)
    end.
    cbn [handle id parent children set_children items next_handle] in *.
    assert (Hidt : id item = test_id test) by apply Hshow.
    exists pkg', c'. split; [reflexivity|].
    do 4 (split; [assumption|]). split; [|split].
    + intros i. rewrite Hids, coll_add_ids, Hidt. simpl. intuition congruence.
    + intros P HP Hmk. apply Hall.
      * apply coll_add_Forall; [|assumption].
        apply (Hmk item test); [now left|assumption|lia].
      * intros item' test' Hin Hs Hle.
        apply (Hmk item' test'); [now right|assumption|lia].
    + intros Hdup Hfresh. simpl in Hdup. apply NoDup_cons_iff in Hdup as [Hnin Hdup].
      rewrite coll_add_fresh in Hnd
        by (rewrite Hidt; apply Hfresh; now left).
      destruct (Hnd Hdup) as (l & Hl & Hf2).
      { intros t Ht. rewrite map_app, in_app_iff. simpl. rewrite Hidt.
        intros [H|[H|[]]].
        - apply (Hfresh t); [now right|assumption].
        - apply Hnin. rewrite H. now apply in_map. }
      exists (item :: l). split; [now rewrite Hl, <- app_assoc|].
      now constructor.
Qed.

(** The sample controller is the one [#createTests] builds. *)
Lemma createTests_snapshot_A :
  createTests Examples.snapshot_A Examples.controller_empty
  = Normal Examples.controller_A.
Proof. reflexivity. Qed.

(** *** The controller stays well formed *)

Lemma coll_add_handles item coll h :
  In h (flat_map handles (coll_add item coll)) ->
  In h (handles item) \/ In h (flat_map handles coll).
Proof.
  induction coll as [|t coll IH]; simpl.
  - rewrite app_nil_r. tauto.
  - destruct (has_id (id item) t); simpl; rewrite !in_app_iff; tauto.
Qed.

Lemma NoDup_app_intro {A : Type} (l l' : list A) :
  List.NoDup l -> List.NoDup l' -> (forall x, In x l -> ~ In x l') ->
  List.NoDup (l ++ l').
Proof.
  induction 1 as [|x l Hx _ IH]; intros Hl' Hd; simpl; [assumption|].
  constructor.
  - rewrite in_app_iff. intros [H|H]; [contradiction|].
    apply (Hd x); [now left|assumption].
  - apply IH; [assumption|]. intros y Hy. apply Hd. now right.
Qed.

Lemma NoDup_app_disjoint {A : Type} (l l' : list A) x :
  List.NoDup (l ++ l') -> In x l -> ~ In x l'.
Proof.
  induction l as [|y l IH]; simpl; [tauto|].
  intros Hnd [->|Hx] Hx'.
  - apply NoDup_cons_iff in Hnd as [Hy _]. apply Hy, in_or_app. now right.
  - apply NoDup_cons_iff in Hnd as [_ Hnd]. now apply (IH Hnd Hx).
Qed.

Lemma coll_add_distinct item coll :
  List.NoDup (flat_map handles coll) ->
  List.NoDup (handles item) ->
  (forall h, In h (handles item) -> ~ In h (flat_map handles coll)) ->
  List.NoDup (flat_map handles (coll_add item coll)).
Proof.
  induction coll as [|t coll IH]; simpl; intros Hnd Hi Hfresh.
  - now rewrite app_nil_r.
  - pose proof (NoDup_app_remove_l _ _ Hnd) as Hrest.
    pose proof (NoDup_app_remove_r _ _ Hnd) as Ht.
    destruct (has_id (id item) t); simpl.
    + apply NoDup_app_intro; [assumption..|].
      intros h Hh Hr. apply (Hfresh h Hh), in_or_app. now right.
    + apply NoDup_app_intro; [assumption| |].
      * apply IH; [assumption..|].
        intros h Hh Hr. apply (Hfresh h Hh), in_or_app. now right.
      * intros h Hh Hadd. apply coll_add_handles in Hadd as [Hadd|Hadd].
        -- apply (Hfresh h Hadd), in_or_app. now left.
        -- now apply (NoDup_app_disjoint _ _ h Hnd).
Qed.

Lemma coll_add_handle_in item coll h :
  In h (map handle (coll_add item coll)) ->
  h = handle item \/ In h (map handle coll).
Proof.
  induction coll as [|t coll IH]; simpl; [intuition|].
  destruct (has_id (id item) t); simpl; intuition.
Qed.

Lemma coll_add_leaf_handles item coll :
  List.NoDup (map handle coll) ->
  ~ In (handle item) (map handle coll) ->
  List.NoDup (map handle (coll_add item coll)).
Proof.
  induction coll as [|t coll IH]; simpl; intros Hnd Hfresh.
  - constructor; [simpl; tauto|constructor].
  - apply NoDup_cons_iff in Hnd as [Ht Hnd].
    destruct (has_id (id item) t); simpl; constructor.
    + intros H. apply Hfresh. now right.
    + assumption.
    + intros H. apply coll_add_handle_in in H as [H|H]; [|contradiction].
      apply Hfresh. now left.
    + apply IH; [assumption|]. intros H. apply Hfresh. now right.
Qed.

Lemma leaves_handles l :
  Forall (fun ch => children ch = []) l -> flat_map handles l = map handle l.
Proof.
  induction 1 as [|ch l Hch _ IH]; simpl; [reflexivity|].
  rewrite handles_children, Hch, IH. reflexivity.
Qed.

(** The children [#createTests] gives a package are new, distinct
    objects without children of their own. *)
Lemma createTest_fold_handles lo ts : forall pkg c,
  lo <= next_handle c ->
  List.NoDup (map handle (children pkg)) ->
  Forall (fun ch => lo <= handle ch < next_handle c /\ children ch = [])
         (children pkg) ->
  exists pkg' c',
    fold_left (fun st test => createTest test st) ts (pkg, c) = (pkg', c') /\
    handle pkg' = handle pkg /\ items c' = items c /\
    next_handle c' = next_handle c + length ts /\
    List.NoDup (map handle (children pkg')) /\
    Forall (fun ch => lo <= handle ch < next_handle c' /\ children ch = [])
           (children pkg').
Proof.
  induction ts as [|test ts IH]; intros pkg c Hlo Hnd Hall.
  - exists pkg, c. simpl. rewrite Nat.add_0_r. repeat split; assumption.
  - cbn [fold_left].
    destruct (createTest_step test pkg c) as (item & -> & Hh & Hshow).
    assert (Hleaf : children item = []) by apply Hshow.
    match goal with
    | |- context [fold_left _ ts (?p, ?k)] =>
        destruct (IH p k) as (pkg' & c' & -> & Hhd & Hit & Hnext & Hnd' & Hall')
    end; cbn [handle children set_children items next_handle] in *.
    + lia.
    + apply coll_add_leaf_handles; [assumption|].
      rewrite Hh. intros Hin. apply in_map_iff in Hin as (x & Hx & Hin).
      rewrite List.Forall_forall in Hall. specialize (Hall x Hin). lia.
    + apply coll_add_Forall; [split; [lia|assumption]|].
      eapply List.Forall_impl; [|exact Hall]. simpl. intros x Hx. split; [lia|tauto].
    + exists pkg', c'. split; [reflexivity|].
      repeat split; try assumption. simpl. lia.
Qed.

Lemma well_formed_empty n b l : well_formed (mkTestController [] n b l).
Proof. split; [constructor|constructor]. Qed.

Lemma createTests_well_formed testData c c' :
  well_formed c -> createTests testData c = Normal c' -> well_formed c'.
Proof.
  intros [Hnd Hlt]. unfold createTests. cbn [createTestItem].
  destruct (tests testData) as [ts|]; [|discriminate].
  match goal with
  | |- context [fold_left _ ts (?p, ?k)] =>
      destruct (createTest_fold_handles (S (next_handle c)) ts p k)
        as (pkg & k' & -> & Hhd & Hit & Hnext & Hch & Hall)
  end; cbn [handle children items next_handle map] in *;
    [lia|constructor|constructor|].
  intros [= <-].
  assert (Hleaves : flat_map handles (children pkg) = map handle (children pkg)).
  { apply leaves_handles. eapply List.Forall_impl; [|exact Hall]. simpl. tauto. }
  assert (Hin : forall h, In h (handles pkg) ->
                          next_handle c <= h < S (next_handle c + length ts)).
  { intros h. rewrite handles_children, Hleaves, Hhd. intros [<-|Hh]; [lia|].
    apply in_map_iff in Hh as (x & <- & Hx).
    rewrite List.Forall_forall in Hall. specialize (Hall x Hx). lia. }
  unfold distinct_items in Hnd. rewrite List.Forall_forall in Hlt.
  split; unfold distinct_items; cbn [items_add items next_handle]; rewrite Hit.
  - apply coll_add_distinct; [assumption| |].
    + rewrite handles_children, Hleaves. constructor; [|assumption].
      rewrite Hhd. intros Hh. apply in_map_iff in Hh as (x & Hx & Hh).
      rewrite List.Forall_forall in Hall. specialize (Hall x Hh). lia.
    + intros h Hh Hold. specialize (Hin h Hh). specialize (Hlt h Hold). lia.
  - apply List.Forall_forall. intros h Hh. rewrite Hnext. simpl.
    apply coll_add_handles in Hh as [Hh|Hh].
    + specialize (Hin h Hh). lia.
    + specialize (Hlt h Hh). lia.
Qed.

Lemma updateTests_well_formed testData c c' :
  well_formed c -> updateTests testData c = Normal c' -> well_formed c'.
Proof.
  unfold updateTests. intros Hwf.
  apply createTests_well_formed.
  destruct (supportsInvalidation c); exact Hwf.
Qed.

(** Without the optional [tests] array [#createTests] throws before it
    reaches [items.add]: the tree stays as it was. *)
Lemma updateTests_without_tests testData c :
  tests testData = None ->
  exists c', updateTests testData c = TypeError c' /\ items c' = items c.
Proof.
  intros Hts. unfold updateTests, createTests. cbn [createTestItem].
  rewrite Hts. eexists. split; [reflexivity|].
  destruct (supportsInvalidation c); reflexivity.
Qed.

Lemma controller_A_well_formed : well_formed Examples.controller_A.
Proof.
  apply (createTests_well_formed Examples.snapshot_A Examples.controller_empty).
  - apply well_formed_empty.
  - apply createTests_snapshot_A.
Qed.

(** A [tests/update] notification that carries the tests of a
    package makes the controller hold, under the package's name, a new
    package item whose children are new items made of the tests of the
    notification and of nothing else: the children carry exactly the
    ids of the notification; each child shows one of its tests; with
    ids that differ from one another the children are the tests one
    for one, in the order the server gave; and a test the package had
    before whose id is not in the notification is not among them. *)
Lemma updateTests_replaces_package testData ts c :
  tests testData = Some ts ->
  exists c' pkg,
    updateTests testData c = Normal c' /\
    coll_get (package testData) (items c') = Some pkg /\
    handle pkg = next_handle c /\ parent pkg = None /\
    (forall i, In i (map id (children pkg)) <-> In i (map test_id ts)) /\
    Forall (fun item => next_handle c < handle item /\
                        exists test, In test ts /\ shows (handle pkg) item test)
           (children pkg) /\
    (List.NoDup (map test_id ts) -> Forall2 (shows (handle pkg)) (children pkg) ts) /\
    (forall old stale,
        coll_get (package testData) (items c) = Some old ->
        In stale (children old) ->
        ~ In (id stale) (map test_id ts) ->
        ~ In (id stale) (map id (children pkg))).
Proof.
  intros Hts. unfold updateTests, createTests.
  set (c1 := if supportsInvalidation c then _ else c).
  assert (Hn : next_handle c1 = next_handle c)
    by (subst c1; destruct (supportsInvalidation c); reflexivity).
  cbn [createTestItem]. rewrite Hts.
  match goal with
  | |- context [fold_left _ ts (?p, ?k)] =>
      destruct (createTest_fold ts p k)
        as (pkg & c' & -> & Hhd & Hid & Hpar & _ & Hids & Hall & Hnd)
  end.
  cbn [handle id parent children next_handle map] in *.
  exists (items_add pkg c'), pkg. split; [reflexivity|].
  assert (Hids' : forall i, In i (map id (children pkg)) <-> In i (map test_id ts)).
  { intros i. rewrite Hids. simpl. tauto. }
  split; [|split; [|split; [|split; [|split; [|split]]]]].
  - cbn [items_add items]. rewrite <- Hid. apply coll_get_add.
  - congruence.
  - assumption.
  - exact Hids'.
  - apply Hall; [constructor|].
    intros item test Hin Hs Hle. split; [lia|]. exists test. rewrite Hhd. auto.
  - intros Hdup. destruct (Hnd Hdup) as (l & -> & Hf2); [simpl; tauto|].
    simpl. rewrite Hhd. exact Hf2.
  - intros old stale _ _ Hnot Hin. apply Hnot, Hids', Hin.
Qed.

Lemma updateTests_replaces_snapshot_A :
  exists c' pkg,
    updateTests Examples.snapshot_A' Examples.controller_A = Normal c' /\
    coll_get (lit "A") (items c') = Some pkg /\
    Forall2 (shows (handle pkg)) (children pkg) [Examples.test_T3] /\
    ~ In (id Examples.item_T1) (map id (children pkg)).
Proof.
  destruct (updateTests_replaces_package
              Examples.snapshot_A' [Examples.test_T3] Examples.controller_A
              eq_refl)
    as (c' & pkg & Hu & Hg & _ & _ & _ & _ & Hord & Hstale).
  exists c', pkg. split; [exact Hu|]. split; [exact Hg|]. split.
  - apply Hord. repeat constructor. simpl. tauto.
  - apply (Hstale Examples.item_A Examples.item_T1).
    + reflexivity.
    + left. reflexivity.
    + simpl. intros [H|[]]. discriminate H.
Qed.

(** C5, where the code departs from it.  A [tests/update] notification
    for package [A] that leaves the optional [tests] out arrives while
    [A] holds the tests [T1] and [T2].  [#updateTests] invalidates the
    results of [A]; [#createTests] makes the new package item and
    throws at [testData.tests.forEach], before it reaches [items.add].
    The controller still holds the old item of [A] with [T1] and [T2]:
    nothing has been rebuilt and no stale test has been dropped. *)
Theorem C5_update_without_tests_keeps_stale_tests :
  tests Samples.snapshot_A_bare = None /\
  coll_get (package Samples.snapshot_A_bare) (items Examples.controller_A)
  = Some Examples.item_A /\
  children Examples.item_A = [Examples.item_T1; Examples.item_T2] /\
  exists c',
    updateTests Samples.snapshot_A_bare Examples.controller_A = TypeError c' /\
    items c' = items Examples.controller_A /\
    coll_get (package Samples.snapshot_A_bare) (items c') = Some Examples.item_A /\
    invalidated c' = [Some (handle Examples.item_A)] /\
    next_handle c' = S (next_handle Examples.controller_A).
Proof.
  split; [reflexivity|]. split; [reflexivity|]. split; [reflexivity|].
  eexists. split; [reflexivity|]. repeat split.
Qed.

(** C4. When the run starts from a queue that holds one package [A]
    whose children are the leaf tests [T1] and [T2], in that order,
    with nothing excluded, no cancellation and a server that answers,
    the run requests are sent for [T2] and then for [T1]. *)
Theorem C4_stack_order {World : Type} (server : Server World)
        request c w A T1 T2 :
  initial_queue request c = [A] ->
  parent A = None -> children A = [T1; T2] ->
  parent T1 <> None -> children T1 = [] ->
  parent T2 <> None -> children T2 = [] ->
  (forall t, excluded request t = false) ->
  (forall w, isCancellationRequested server w = false) ->
  (forall w i, exists w' r, sendRequest server w i = (w', inl r)) ->
  exists w' log,
    runTest server request c w = Finished w' log /\
    requested log = [T2; T1].
Proof.
  intros Hq HpA HcA Hp1 Hc1 Hp2 Hc2 Hex Hcancel Hanswer.
  unfold runTest. rewrite Hq.
  replace (total_weight [A]) with 3
    by (simpl; rewrite !weight_children, HcA; simpl;
        rewrite !weight_children, Hc1, Hc2; reflexivity).
  change [A] with (push [] A).
  rewrite run_loop_expand by auto.
  rewrite HcA. change (push_all [T1; T2] []) with (push (push [] T1) T2).
  destruct (Hanswer w (id T2)) as (w2 & r2 & Hs2).
  destruct (run_loop_leaf server request 2 (push [] T1) T2 w [] w2 r2)
    as (log2 & -> & Hl2); auto.
  destruct (Hanswer w2 (id T1)) as (w1 & r1 & Hs1).
  destruct (run_loop_leaf server request 1 [] T1 w2 log2 w1 r1)
    as (log1 & -> & Hl1); auto.
  rewrite run_loop_done. eexists _, _. split; [reflexivity|].
  rewrite requested_app, Hl1, Hl2. reflexivity.
Qed.

Lemma C4_witness :
  exists w' log,
    runTest Examples.server_pass Examples.run_A Examples.controller_A tt
    = Finished w' log /\
    requested log = [Examples.item_T2; Examples.item_T1].
Proof.
  apply (C4_stack_order Examples.server_pass Examples.run_A
           Examples.controller_A tt
           Examples.item_A Examples.item_T1 Examples.item_T2);
    try reflexivity; try discriminate.
  intros w i. eexists _, _. reflexivity.
Defined.

(** C8. A run sends [nargo/tests/run] only for items that have a
    parent, and it always comes to an end.  An item without a parent (a
    package) that is taken from the queue and is not excluded has its
    children pushed, and nothing is sent or reported for it. *)
Theorem C8_only_items_with_parent_requested
        {World : Type} (server : Server World) request c w :
  Forall (fun t => parent t <> None)
         (requested (log_of (runTest server request c w))) /\
  runTest server request c w <> OutOfFuel /\
  (forall fuel queue test w log,
      isCancellationRequested server w = false ->
      excluded request test = false ->
      parent test = None ->
      run_loop server (S fuel) request (push queue test) w log
      = run_loop server fuel request (push_all (children test) queue) w log).
Proof.
  split; [|split].
  - unfold runTest.
    apply (run_loop_requested server request (fun _ => True)).
    + intros t _ _ Hp. exact Hp.
    + trivial.
    + apply List.Forall_forall. trivial.
    + constructor.
  - apply runTest_ends.
  - intros. now apply run_loop_expand.
Qed.

Lemma C8_witness :
  run_loop Examples.server_pass 4 Examples.run_all
           (push [] Examples.item_A) tt []
  = run_loop Examples.server_pass 3 Examples.run_all
             (push_all (children Examples.item_A) []) tt [].
Proof.
  apply (proj2 (proj2 (C8_only_items_with_parent_requested
                         Examples.server_pass Examples.run_all
                         Examples.controller_A tt)));
    reflexivity.
Defined.

(** Every test a run request is sent for is not excluded itself and is
    an entry of the initial queue or comes from one by going from items
    that are not excluded to their children; when every entry of the
    initial queue is excluded, nothing is sent. *)
Lemma requested_reachable {World : Type} (server : Server World) request c w :
  Forall (fun t => excluded request t = false /\
                   exists q, In q (initial_queue request c) /\
                             reaches request q t)
         (requested (log_of (runTest server request c w))) /\
  (Forall (fun q => excluded request q = true) (initial_queue request c) ->
   requested (log_of (runTest server request c w)) = []).
Proof.
  assert (Hmain :
    Forall (fun t => excluded request t = false /\
                     exists q, In q (initial_queue request c) /\
                               reaches request q t)
           (requested (log_of (runTest server request c w)))).
  { unfold runTest.
    apply (run_loop_requested server request
             (fun t => exists q, In q (initial_queue request c) /\
                                 reaches request q t)).
    - intros t Ht He _. split; assumption.
    - intros t ch (q & Hq & Hr) He Hch. exists q. split; [assumption|].
      eapply reaches_child; eassumption.
    - apply List.Forall_forall. intros q Hq. exists q.
      split; [assumption|constructor].
    - constructor. }
  split; [exact Hmain|].
  intros Hall.
  destruct (requested (log_of (runTest server request c w))) as [|t l];
    [reflexivity|exfalso].
  inversion Hmain as [|? ? (He & q & Hq & Hr) _]; subst.
  rewrite List.Forall_forall in Hall. specialize (Hall q Hq).
  apply reaches_start in Hr as [->|Hr]; congruence.
Qed.

(** *** Below an excluded package *)

Lemma descends_in_handles a t : descends a t -> In (handle t) (handles a).
Proof.
  intros Hd. rewrite handles_children. right. now apply descends_handles.
Qed.

Lemma self_in_handles t : In (handle t) (handles t).
Proof. rewrite handles_children. now left. Qed.

Lemma descends_irrefl t : ~ descends t t.
Proof. intros Hd. apply descends_weight in Hd. lia. Qed.



(** A run of everything starts from the packages, and no package lies
    below another. *)
Lemma run_everything_clear request c :
  include request = None -> distinct_items c ->
  Forall (TreeSpec.tree_node c) (initial_queue request c) /\
  Forall (fun q => ~ TreeSpec.below_excluded c request q)
         (initial_queue request c).
Proof.
  intros Hinc Hnd. unfold initial_queue. rewrite Hinc, push_all_app. simpl.
  split; apply List.Forall_forall; intros q Hq; [now left|].
  intros (E & HE & _ & Hd).
  assert (q = E).
  { apply (distinct_trees_share (items c) q E (handle q)); try assumption.
    - apply self_in_handles.
    - now apply descends_in_handles. }
  subst q. exact (descends_irrefl _ Hd).
Qed.

Lemma package_descends pkg t :
  TreeSpec.package_item pkg -> descends pkg t -> In t (children pkg).
Proof.
  intros [_ Hch] Hd. inversion Hd as [? ? Ht|? ch ? Hc Hd']; subst;
    [assumption|exfalso].
  rewrite List.Forall_forall in Hch. destruct (Hch ch Hc) as [_ Hleaf].
  inversion Hd' as [? ? Hin|? ? ? Hin _]; subst; rewrite Hleaf in Hin;
    exact Hin.
Qed.

(** In a tree of two levels, a request with an [include] list whose
    exclusions all lie below an included item of the tree excludes no
    package: no entry of its initial queue lies below an excluded
    package. *)
Lemma filtered_request_clear request c l :
  TreeSpec.two_level c ->
  include request = Some l ->
  Forall (TreeSpec.tree_node c) l ->
  (forall x, TreeSpec.tree_node c x -> excluded request x = true ->
             exists i, In i l /\ descends i x) ->
  Forall (TreeSpec.tree_node c) (initial_queue request c) /\
  Forall (fun q => ~ TreeSpec.below_excluded c request q)
         (initial_queue request c).
Proof.
  intros Htl Hinc Hnodes Hfilter.
  unfold initial_queue. rewrite Hinc, push_all_app. simpl.
  split; [assumption|].
  apply List.Forall_forall. intros q _ (E & HE & Hex & _).
  unfold TreeSpec.two_level in Htl. rewrite List.Forall_forall in Htl.
  destruct (Hfilter E (or_introl HE) Hex) as (i & Hi & Hd).
  rewrite List.Forall_forall in Hnodes.
  destruct (Htl E HE) as [HparE _].
  destruct (Hnodes i Hi) as [Hroot|(pkg & Hpkg & Hdi)].
  - pose proof (Htl i Hroot) as Hpi.
    apply (package_descends i E Hpi) in Hd.
    destruct Hpi as [_ Hch]. rewrite List.Forall_forall in Hch.
    destruct (Hch E Hd) as [HparE' _]. congruence.
  - pose proof (Htl pkg Hpkg) as Hpp.
    apply (package_descends pkg i Hpp) in Hdi.
    destruct Hpp as [_ Hch]. rewrite List.Forall_forall in Hch.
    destruct (Hch i Hdi) as [_ Hleaf].
    inversion Hd as [? ? Hin|? ? ? Hin _]; subst; rewrite Hleaf in Hin;
      exact Hin.
Qed.

(** Such a request: run [A] but not its test [T1]. *)
Lemma run_A_without_T1_clear :
  Forall (TreeSpec.tree_node Examples.controller_A)
         (initial_queue Samples.run_A_without_T1 Examples.controller_A) /\
  Forall (fun q => ~ TreeSpec.below_excluded Examples.controller_A
                                             Samples.run_A_without_T1 q)
         (initial_queue Samples.run_A_without_T1 Examples.controller_A).
Proof.
  apply (filtered_request_clear _ _ [Examples.item_A]).
  - repeat constructor.
  - reflexivity.
  - repeat constructor.
  - intros x [[<-|[]]|(pkg & [<-|[]] & Hd)] Hex; [discriminate Hex|].
    exists Examples.item_A. split; [now left|exact Hd].
Qed.

(** The condition on the initial queue cannot be left out: a request
    that lists the test [T1] itself beside its excluded package [A]
    has [T1] run. *)
Lemma listed_test_of_excluded_package_is_run :
  excluded Examples.run_T1_without_A Examples.item_A = true /\
  In Examples.item_T1 (children Examples.item_A) /\
  requested (log_of (runTest Examples.server_pass Examples.run_T1_without_A
                             Examples.controller_A tt))
  = [Examples.item_T1].
Proof.
  split; [reflexivity|]. split; [left; reflexivity|reflexivity].
Qed.



End ClientTheory.

(** ** More on the sanitizer *)

Module SanitizerExtras.
Import Js Regex Output Adapter SanitizerTheory.

Lemma replace_from_sublist r : forall n s, sublist (replace_from r n s) s.
Proof.
  intros n s. revert n. induction s as [|c s IH]; intros n; [constructor|].
  cbn [replace_from]. destruct n as [|n]; [|apply sublist_cons, IH].
  destruct (exec r (c :: s)) as [[|m]|];
    [apply sublist_skip, IH|apply sublist_cons, IH|apply sublist_skip, IH].
Qed.

Lemma replace_from_skip r l post :
  replace_from r (length l) (l ++ post) = replace_from r 0 post.
Proof. induction l as [|c l IH]; [reflexivity|exact IH]. Qed.

Lemma replace_from_keep r c s :
  exec r (c :: s) = None ->
  replace_from r 0 (c :: s) = c :: replace_from r 0 s.
Proof. intros H. cbn [replace_from]. now rewrite H. Qed.

Lemma replace_global_ansi_prefix pre s :
  Forall (fun c => c <> ESC) pre ->
  replace_global re_ansi (pre ++ s) = pre ++ replace_global re_ansi s.
Proof.
  unfold replace_global. induction 1 as [|c pre Hc _ IH]; [reflexivity|].
  cbn [app replace_from]. rewrite (exec_re_ansi_no_ESC _ _ Hc), IH. reflexivity.
Qed.

Lemma filter_printable_clean s :
  Forall allowed s -> List.filter printable s = s.
Proof.
  induction 1 as [|c s Hc _ IH]; [reflexivity|].
  cbn [List.filter]. apply printable_allowed in Hc. now rewrite Hc, IH.
Qed.

Lemma sanitize_filter s :
  sanitize s = List.filter printable (replace_global re_ansi s).
Proof.
  unfold sanitize, re_non_printable. rewrite replace_global_Class.
  apply filter_ext. intros c. apply negb_involutive.
Qed.

(** *** The classes of the first expression *)

Lemma range_bounds a b c :
  range a b c = true <-> (code a <= c <= code b)%Z.
Proof. unfold range, in_range. rewrite andb_true_iff, !Z.leb_le. tauto. Qed.

Lemma param_bounds c : range "0" "?" c = true <-> (48 <= c <= 63)%Z.
Proof. apply range_bounds. Qed.
Lemma inter_bounds c : range " " "/" c = true <-> (32 <= c <= 47)%Z.
Proof. apply range_bounds. Qed.
Lemma final_bounds c : range "@" "~" c = true <-> (64 <= c <= 126)%Z.
Proof. apply range_bounds. Qed.

Lemma not_true_false b : b <> true -> b = false.
Proof. destruct b; congruence. Qed.

Lemma rmatch_star_cons p k c s :
  rmatch (StarClass p) k (c :: s)
  = if p c then
      match rmatch (StarClass p) k s with
      | Some rest => Some rest
      | None => k (c :: s)
      end
    else k (c :: s).
Proof. reflexivity. Qed.

(** The star takes a whole run of its class when what follows lets the
    match go on. *)
Lemma star_stop p k l rest r :
  Forall (fun c => p c = true) l ->
  (forall c tl, rest = c :: tl -> p c = false) ->
  k rest = Some r ->
  rmatch (StarClass p) k (l ++ rest) = Some r.
Proof.
  intros Hl Hrest Hk. induction Hl as [|c l Hc _ IH].
  - destruct rest as [|c tl]; [exact Hk|].
    cbn [app]. rewrite rmatch_star_cons, (Hrest c tl eq_refl). exact Hk.
  - cbn [app]. rewrite rmatch_star_cons, Hc, IH. reflexivity.
Qed.

(** The star fails when the rest of the match fails wherever the star
    may stop. *)
Lemma star_fail p k s :
  (forall n, k (drop n s) = None) -> rmatch (StarClass p) k s = None.
Proof.
  induction s as [|c s IH]; intros Hk; [exact (Hk 0)|].
  pose proof (Hk 0) as H0. cbn [drop] in H0.
  rewrite rmatch_star_cons. rewrite IH by (intros n; exact (Hk (S n))).
  rewrite H0. now destruct (p c).
Qed.

Lemma exec_escape_sequence e post :
  escape_sequence e -> exec re_ansi (e ++ post) = Some (length e).
Proof.
  intros He. unfold exec.
  assert (Hm : rmatch re_ansi Some (e ++ post) = Some post).
  { destruct He as [c Hc|params inter final Hp Hi Hf].
    - unfold re_ansi. cbn [rmatch app]. rewrite Z.eqb_refl, Hc. reflexivity.
    - unfold re_ansi, chr. cbn [rmatch app].
      rewrite !Z.eqb_refl. cbn [orb]. rewrite <- !app_assoc. cbn [app].
      change (range "@" "Z" (code "[") || range "\" "_" (code "[")) with false.
      cbv iota.
      apply (star_stop (range "0" "?")); [assumption| |].
      + intros c tl Heq. apply not_true_false. rewrite param_bounds.
        destruct Hi as [|i inter Hi0 _]; cbn [app] in Heq; injection Heq as <- _.
        * apply final_bounds in Hf. lia.
        * apply inter_bounds in Hi0. lia.
      + apply (star_stop (range " " "/")); [assumption| |].
        * intros c tl [= <- _]. apply not_true_false. rewrite inter_bounds.
          apply final_bounds in Hf. lia.
        * cbn [rmatch]. rewrite Hf. reflexivity. }
  rewrite Hm. f_equal. rewrite length_app. lia.
Qed.

Lemma replace_global_escape_sequence e post :
  escape_sequence e ->
  replace_global re_ansi (e ++ post) = replace_global re_ansi post.
Proof.
  intros He. pose proof (exec_escape_sequence e post He) as Hx.
  unfold replace_global.
  destruct e as [|c e]; [inversion He|].
  cbn [app replace_from] in *. rewrite Hx. cbn [length].
  apply replace_from_skip.
Qed.

Lemma exec_unfinished a :
  Forall (fun c => range " " "?" c = true) a ->
  exec re_ansi (ESC :: code "[" :: a) = None.
Proof.
  intros Ha. unfold exec.
  assert (Hm : rmatch re_ansi Some (ESC :: code "[" :: a) = None);
    [|now rewrite Hm].
  unfold re_ansi, chr. cbn [rmatch]. rewrite !Z.eqb_refl.
  change (range "@" "Z" (code "[") || range "\" "_" (code "[")) with false.
  cbv iota.
  apply star_fail. intros n. apply star_fail. intros m.
  assert (Hd : Forall (fun c => range " " "?" c = true) (drop m (drop n a)))
    by now apply Forall_drop, Forall_drop.
  destruct Hd as [|c tl Hc _]; [reflexivity|].
  cbn [rmatch]. replace (range "@" "~" c) with false; [reflexivity|].
  symmetry. apply not_true_false. rewrite final_bounds.
  apply range_bounds in Hc. change (code " ") with 32%Z in Hc.
  change (code "?") with 63%Z in Hc. lia.
Qed.

Lemma sanitize_escape_sequence (pre e post : JsString) :
  Forall allowed pre ->
  escape_sequence e ->
  sanitize (pre ++ e ++ post) = pre ++ sanitize post.
Proof.
  intros Hpre He. rewrite !sanitize_filter.
  rewrite replace_global_ansi_prefix
    by (eapply List.Forall_impl; [|exact Hpre]; apply allowed_not_ESC).
  rewrite replace_global_escape_sequence by assumption.
  rewrite List.filter_app, filter_printable_clean by assumption. reflexivity.
Qed.

(** X1. The sanitizer only deletes: what it gives is what it was given
    with some units left out, in the same order, so it is never
    longer. *)
Theorem X1_sanitize_only_deletes (s : JsString) :
  sublist (sanitize s) s /\ length (sanitize s) <= length s.
Proof.
  assert (H : sublist (sanitize s) s).
  { unfold sanitize, replace_global.
    etransitivity; apply replace_from_sublist. }
  split; [exact H|]. now apply sublist_length.
Qed.

(** X2. On a string without the ESC character the sanitizer keeps
    exactly the units of the class [[ -~\n\t]], each as often and in the
    order it came. *)
Theorem X2_sanitize_without_ESC (s : JsString) :
  Forall (fun c => c <> ESC) s ->
  sanitize s = List.filter printable s.
Proof.
  intros Hs. rewrite sanitize_filter, replace_global_ansi_no_ESC by assumption.
  reflexivity.
Qed.

Lemma X2_witness :
  sanitize (lit "caf" ++ [233%Z; 7%Z] ++ lit " ok") = lit "caf ok".
Proof.
  rewrite X2_sanitize_without_ESC; [reflexivity|].
  repeat constructor; discriminate.
Defined.

(** X3. An escape sequence that follows clean text is deleted whole,
    with the parameter units that would pass for text on their own, and
    the sanitizer goes on with what follows it. *)
Theorem X3_escape_sequence_removed (pre e post : JsString) :
  Forall allowed pre ->
  escape_sequence e ->
  sanitize (pre ++ e ++ post) = pre ++ sanitize post.
Proof. apply sanitize_escape_sequence. Qed.

Lemma X3_witness :
  sanitize (lit "error" ++ (ESC :: code "[" :: lit "1;31" ++ [] ++ [code "m"])
                        ++ lit ": x")
  = lit "error" ++ sanitize (lit ": x").
Proof.
  apply X3_escape_sequence_removed.
  - apply List.Forall_forall. intros c Hc. apply printable_allowed.
    revert c Hc. apply forallb_forall. reflexivity.
  - apply escape_csi; [|constructor|reflexivity].
    apply List.Forall_forall. apply forallb_forall. reflexivity.
Defined.

(** X4. A sequence cut between two data events is not put together
    again: of the first part only ESC is deleted, the second part is
    text, and the two lines show the bracket, the parameters and the
    final unit that one event would have hidden. *)
Theorem X4_split_sequence_leaks (pre params inter post a b : JsString) final :
  Forall allowed pre ->
  Forall (fun c => range "0" "?" c = true) params ->
  Forall (fun c => range " " "/" c = true) inter ->
  range "@" "~" final = true ->
  a ++ b = params ++ inter ->
  sanitize (pre ++ ESC :: code "[" :: a) ++ sanitize (b ++ final :: post)
  = pre ++ (code "[" :: params ++ inter ++ [final]) ++ sanitize post
  /\ sanitize ((pre ++ ESC :: code "[" :: a) ++ (b ++ final :: post))
     = pre ++ sanitize post.
Proof.
  intros Hpre Hp Hi Hf Hab.
  assert (Hall : Forall (fun c => range " " "?" c = true) (a ++ b)).
  { rewrite Hab. apply Forall_app. split.
    - eapply List.Forall_impl; [|exact Hp]. intros c Hc.
      apply range_bounds. apply param_bounds in Hc.
      change (code " ") with 32%Z. change (code "?") with 63%Z. lia.
    - eapply List.Forall_impl; [|exact Hi]. intros c Hc.
      apply range_bounds. apply inter_bounds in Hc.
      change (code " ") with 32%Z. change (code "?") with 63%Z. lia. }
  apply Forall_app in Hall as [Ha Hb].
  assert (Htext : forall l, Forall (fun c => range " " "?" c = true) l ->
                            Forall allowed l).
  { intros l Hl. eapply List.Forall_impl; [|exact Hl]. intros c Hc.
    apply range_bounds in Hc. change (code " ") with 32%Z in Hc.
    change (code "?") with 63%Z in Hc. unfold allowed. lia. }
  assert (Hfin : allowed final) by (apply final_bounds in Hf; unfold allowed; lia).
  assert (Hpre' : Forall (fun c => c <> ESC) pre)
    by (eapply List.Forall_impl; [|exact Hpre]; apply allowed_not_ESC).
  split.
  - assert (H1 : sanitize (pre ++ ESC :: code "[" :: a) = pre ++ code "[" :: a).
    { rewrite sanitize_filter, replace_global_ansi_prefix by assumption.
      unfold replace_global.
      rewrite replace_from_keep by exact (exec_unfinished a Ha).
      change (replace_from re_ansi 0 (code "[" :: a))
        with (replace_global re_ansi (code "[" :: a)).
      rewrite replace_global_ansi_no_ESC.
      2:{ constructor; [discriminate|].
          eapply List.Forall_impl; [|exact (Htext a Ha)]. apply allowed_not_ESC. }
      rewrite List.filter_app, filter_printable_clean by assumption.
      cbn [List.filter]. change (printable ESC) with false.
      change (printable (code "[")) with true. cbv iota.
      now rewrite (filter_printable_clean a (Htext a Ha)). }
    assert (H2 : sanitize (b ++ final :: post) = b ++ final :: sanitize post).
    { change (b ++ final :: post) with (b ++ [final] ++ post).
      rewrite app_assoc, !sanitize_filter, replace_global_ansi_prefix.
      2:{ eapply List.Forall_impl; [apply allowed_not_ESC|].
          apply Forall_app. split; [exact (Htext b Hb)|now constructor]. }
      rewrite List.filter_app, filter_printable_clean, <- app_assoc; [reflexivity|].
      apply Forall_app. split; [exact (Htext b Hb)|now constructor]. }
    rewrite H1, H2, <- !app_assoc. cbn [app]. rewrite <- !app_assoc.
    f_equal. f_equal. rewrite app_assoc, Hab, <- app_assoc. reflexivity.
  - replace ((pre ++ ESC :: code "[" :: a) ++ b ++ final :: post)
      with (pre ++ (ESC :: code "[" :: params ++ inter ++ [final]) ++ post).
    + apply sanitize_escape_sequence; [assumption|]. now apply escape_csi.
    + rewrite <- !app_assoc. cbn [app]. do 3 f_equal.
      rewrite <- !app_assoc. cbn [app]. rewrite app_assoc, <- Hab, <- app_assoc.
      reflexivity.
Qed.

Lemma X4_witness :
  sanitize (lit "err" ++ ESC :: code "[" :: lit "3")
    ++ sanitize (lit "1" ++ code "m" :: lit " x")
  = lit "err[31m x"
  /\ sanitize ((lit "err" ++ ESC :: code "[" :: lit "3")
               ++ (lit "1" ++ code "m" :: lit " x"))
     = lit "err x".
Proof.
  assert (Hclean : sanitize (lit " x") = lit " x") by reflexivity.
  destruct (X4_split_sequence_leaks
              (lit "err") (lit "31") [] (lit " x") (lit "3") (lit "1") (code "m"))
    as [H1 H2].
  - apply List.Forall_forall. intros c Hc. apply printable_allowed.
    revert c Hc. apply forallb_forall. reflexivity.
  - apply List.Forall_forall. apply forallb_forall. reflexivity.
  - constructor.
  - reflexivity.
  - reflexivity.
  - rewrite H1, H2, Hclean. split; reflexivity.
Defined.

End SanitizerExtras.

(** ** More on the launcher *)

Module LauncherExtras.
Import Js Value Output Host Adapter DebuggerTheory.



Lemma package_flag v :
  negb (strict_eq (js_or v (str "")) (str "")) = truthy v.
Proof.
  unfold js_or. destruct v as [| |[]|n|s|r p]; try reflexivity.
  - cbn [truthy]. destruct (Z.eqb_spec n 0); reflexivity.
  - cbn [truthy]. destruct (jsstring_eqb s []) eqn:E; cbn [negb].
    + reflexivity.
    + cbn [strict_eq]. unfold str, lit. cbn [list_ascii_of_string map].
      now rewrite E.
Qed.

Lemma truthy_or_false v : truthy (js_or v (JBool false)) = truthy v.
Proof. unfold js_or. now destruct (truthy v) eqn:E. Qed.

(** X5. Neither revision returns a configuration it has built unless
    the pre-flight child was spawned and has exited with code 0.  The
    earlier revision hands back a configuration that names a program or
    asks to attach as it came, at once, without a child and without
    touching the channel, and returns without a successful pre-flight
    in no other case; the current revision never returns a
    configuration at once. *)
Theorem X5_no_configuration_without_preflight h out config run resolved out' :
  (finish (Debugger.resolveDebugConfiguration h out config) run
   = (Returned resolved, out') ->
   exit_code run = Some 0%Z /\
   exists command args k,
     Debugger.resolveDebugConfiguration h out config = Spawn command args k) /\
  (finish (DebuggerV1.resolveDebugConfiguration h out config) run
   = (Returned resolved, out') ->
   (resolved = config /\ out' = out /\
    (truthy (get config "program") = true \/
     loose_eq_text (get config "request") (lit "attach") = true)) \/
   (exit_code run = Some 0%Z /\
    exists command args k,
      DebuggerV1.resolveDebugConfiguration h out config = Spawn command args k)) /\
  (truthy (get config "program") = true \/
   loose_eq_text (get config "request") (lit "attach") = true ->
   DebuggerV1.resolveDebugConfiguration h out config = Done (Returned config) out) /\
  (forall o out'',
      Debugger.resolveDebugConfiguration h out config <> Done (Returned o) out'').
Proof.
  assert (Hmon : forall r o, preflightCheckMonitor r o run = (Returned resolved, out') ->
                             exit_code run = Some 0%Z).
  { intros r o. unfold preflightCheckMonitor.
    destruct (exit_code run) as [c|]; cbn [loose_eq_zero negb]; [|discriminate].
    destruct (Z.eqb_spec c 0); [now subst|discriminate]. }
  split; [|split; [|split]].
  - unfold Debugger.resolveDebugConfiguration.
    destruct (noir_document h) as [doc|]; cbn [finish]; [|discriminate].
    intros H. split; [eapply Hmon, H|]. eauto.
  - unfold DebuggerV1.resolveDebugConfiguration.
    destruct (truthy (get config "program")
              || loose_eq_text (get config "request") (lit "attach")) eqn:E.
    + cbn [finish]. intros [= <- <-]. left.
      apply orb_true_iff in E. auto.
    + destruct (noir_document h) as [doc|]; cbn [finish]; [|discriminate].
      intros H. right. split; [eapply Hmon, H|]. eauto.
  - intros E. apply orb_true_iff in E.
    unfold DebuggerV1.resolveDebugConfiguration. now rewrite E.
  - intros o out''. unfold Debugger.resolveDebugConfiguration.
    destruct (noir_document h); discriminate.
Qed.

Lemma X5_witness :
  (exists resolved out',
      finish (Debugger.resolveDebugConfiguration
                Examples.host_noir Examples.channel_empty Examples.config_empty)
             Examples.child_ok = (Returned resolved, out') /\
      exit_code Examples.child_ok = Some 0%Z) /\
  DebuggerV1.resolveDebugConfiguration
    Examples.host_noir Examples.channel_empty Examples.config_attach
  = Done (Returned Examples.config_attach) Examples.channel_empty.
Proof.
  split.
  - eexists _, _. split; [reflexivity|].
    eapply (proj1 (X5_no_configuration_without_preflight
                     Examples.host_noir Examples.channel_empty Examples.config_empty
                     Examples.child_ok _ _)).
    reflexivity.
  - apply (proj1 (proj2 (proj2 (X5_no_configuration_without_preflight
                     Examples.host_noir Examples.channel_empty Examples.config_attach
                     Examples.child_ok Examples.config_empty
                     Examples.channel_empty)))).
    right. reflexivity.
Defined.




(** X7. The arguments of the pre-flight child follow the input
    configuration flag by flag: after the six fixed places come the
    package flag with the package exactly when the input names a
    package, then the generate-acir flag exactly when the input asks
    for it, then the skip-instrumentation flag likewise; the package
    passed is the package of the returned configuration.  So there are
    six to ten arguments. *)
Theorem X7_preflight_flags h currentFilePath config :
  let resolved := Debugger.resolvedConfig h currentFilePath config in
  Debugger.preflightArgs resolved config
  = [ str "dap"; str "--preflight-check"; str "--preflight-project-folder";
      get resolved "projectFolder"; str "--preflight-prover-name";
      get resolved "proverName" ]
    ++ (if truthy (get config "package")
        then [str "--preflight-package"; get resolved "package"] else [])
    ++ (if truthy (get config "generateAcir")
        then [str "--preflight-generate-acir"] else [])
    ++ (if truthy (get config "skipInstrumentation")
        then [str "--preflight-skip-instrumentation"] else [])
  /\ 6 <= length (Debugger.preflightArgs resolved config) <= 10.
Proof.
  intros resolved.
  assert (Heq : Debugger.preflightArgs resolved config
    = [ str "dap"; str "--preflight-check"; str "--preflight-project-folder";
        get resolved "projectFolder"; str "--preflight-prover-name";
        get resolved "proverName" ]
      ++ (if truthy (get config "package")
          then [str "--preflight-package"; get resolved "package"] else [])
      ++ (if truthy (get config "generateAcir")
          then [str "--preflight-generate-acir"] else [])
      ++ (if truthy (get config "skipInstrumentation")
          then [str "--preflight-skip-instrumentation"] else [])).
  { unfold Debugger.preflightArgs.
    change (get resolved "package") with (js_or (get config "package") (str "")).
    change (get resolved "generateAcir")
      with (js_or (get config "generateAcir") (JBool false)).
    change (get resolved "skipInstrumentation")
      with (js_or (get config "skipInstrumentation") (JBool false)).
    rewrite package_flag, !truthy_or_false.
    destruct (truthy (get config "package")) eqn:E; [|reflexivity].
    unfold js_or. rewrite E. reflexivity. }
  split; [exact Heq|]. rewrite Heq.
  destruct (truthy (get config "package")), (truthy (get config "generateAcir")),
    (truthy (get config "skipInstrumentation")); cbn [length app]; lia.
Qed.

(** X8. The pre-flight child is the executable the live debug adapter
    will be, started with the adapter's own arguments and the pre-flight
    flags after them.  Both revisions. *)
Theorem X8_preflight_runs_the_adapter h out config :
  (forall command args k,
      Debugger.resolveDebugConfiguration h out config = Spawn command args k ->
      command = fst (createDebugAdapterDescriptor h) /\
      exists flags,
        args = snd (createDebugAdapterDescriptor h)
               ++ str "--preflight-check" :: flags) /\
  (forall command args k,
      DebuggerV1.resolveDebugConfiguration h out config = Spawn command args k ->
      command = fst (createDebugAdapterDescriptor h) /\
      exists flags,
        args = snd (createDebugAdapterDescriptor h)
               ++ str "--preflight-check" :: flags).
Proof.
  split; intros command args k Hs.
  - apply spawn_inv in Hs as (doc & _ & -> & -> & _).
    split; [reflexivity|]. eexists. reflexivity.
  - apply spawn_inv_v1 in Hs as (doc & _ & -> & -> & _).
    split; [reflexivity|]. eexists. reflexivity.
Qed.

Lemma X8_witness :
  exists command args k flags,
    Debugger.resolveDebugConfiguration
      Examples.host_noir Examples.channel_empty Examples.config_folder
    = Spawn command args k /\
    command = lit "nargo" /\
    args = [str "dap"] ++ str "--preflight-check" :: flags.
Proof.
  destruct (proj1 (X8_preflight_runs_the_adapter
                     Examples.host_noir Examples.channel_empty Examples.config_folder)
                  _ _ _ eq_refl) as (Hc & flags & Ha).
  eexists _, _, _, flags. split; [reflexivity|]. split; [exact Hc|exact Ha].
Defined.

(** X9. For a configuration that sets none of [program], [type], [name]
    and [projectFolder] and does not ask to attach, the two revisions do
    the same: both spawn the child or neither does, with the same
    executable, the earlier arguments being the first four of the
    current ones; and for the same behaviour of the child both end the
    same way, with the same channel and, when they return, the same
    [type], [name], [request], [program] and [projectFolder]. *)
Theorem X9_revisions_agree h out config run :
  truthy (get config "program") = false ->
  loose_eq_text (get config "request") (lit "attach") = false ->
  truthy (get config "type") = false ->
  truthy (get config "name") = false ->
  truthy (get config "projectFolder") = false ->
  same_launch
    (fst (finish (DebuggerV1.resolveDebugConfiguration h out config) run))
    (fst (finish (Debugger.resolveDebugConfiguration h out config) run)) /\
  snd (finish (DebuggerV1.resolveDebugConfiguration h out config) run)
  = snd (finish (Debugger.resolveDebugConfiguration h out config) run) /\
  (forall command args k,
      Debugger.resolveDebugConfiguration h out config = Spawn command args k ->
      exists k1,
        DebuggerV1.resolveDebugConfiguration h out config
        = Spawn command (firstn 4 args) k1).
Proof.
  intros Hprog Hreq Htype Hname Hfolder.
  unfold DebuggerV1.resolveDebugConfiguration, Debugger.resolveDebugConfiguration.
  rewrite Hprog, Hreq. cbn [orb].
  destruct (noir_document h) as [doc|]; cbn [finish fst snd].
  2:{ repeat split. intros ? ? ? [=]. }
  assert (Hpf : get (Debugger.resolvedConfig h (fsPath doc) config) "projectFolder"
                = findNearestPackageFrom h (fsPath doc)).
  { change (get (Debugger.resolvedConfig h (fsPath doc) config) "projectFolder")
      with (if Debugger.projectFolder_given config
            then get config "projectFolder"
            else findNearestPackageFrom h (fsPath doc)).
    now rewrite projectFolder_given_truthy, Hfolder. }
  split; [|split].
  - unfold preflightCheckMonitor.
    destruct (negb (loose_eq_zero (exit_code run))); cbn [fst same_launch];
      [reflexivity|].
    intros field Hf. cbn [In] in Hf.
    repeat (destruct Hf as [<-|Hf]); try contradiction; try reflexivity.
    + change (get (Debugger.resolvedConfig h (fsPath doc) config) "type")
        with (js_or (get config "type") (str "noir")).
      unfold js_or. now rewrite Htype.
    + change (get (Debugger.resolvedConfig h (fsPath doc) config) "name")
        with (js_or (get config "name") (str "Noir binary package")).
      unfold js_or. now rewrite Hname.
    + now rewrite Hpf.
  - unfold preflightCheckMonitor.
    destruct (negb (loose_eq_zero (exit_code run))); reflexivity.
  - intros command args k [= <- <- <-]. eexists.
    unfold Debugger.preflightArgs, DebuggerV1.preflightArgs.
    cbn [app firstn]. rewrite Hpf. reflexivity.
Qed.

Lemma X9_witness :
  same_launch
    (fst (finish (DebuggerV1.resolveDebugConfiguration
                    Examples.host_noir Examples.channel_empty Examples.config_empty)
                 Examples.child_ok))
    (fst (finish (Debugger.resolveDebugConfiguration
                    Examples.host_noir Examples.channel_empty Examples.config_empty)
                 Examples.child_ok)).
Proof.
  apply (X9_revisions_agree Examples.host_noir Examples.channel_empty
           Examples.config_empty Examples.child_ok); reflexivity.
Defined.

End LauncherExtras.

(** ** The command of the language server *)

Module LspExtras.
Import Js Value Lsp.

Lemma replaceAll_app a b s t :
  replaceAll a b (s ++ t) = replaceAll a b s ++ replaceAll a b t.
Proof. apply map_app. Qed.

Lemma replaceAll_gone a b s : a <> b -> ~ In a (replaceAll a b s).
Proof.
  intros Hab. induction s as [|c s IH]; cbn [replaceAll map In]; [tauto|].
  intros [H|H]; [|exact (IH H)].
  destruct (Z.eqb_spec c a); congruence.
Qed.

Lemma replaceAll_absent a b s : ~ In a s -> replaceAll a b s = s.
Proof.
  induction s as [|c s IH]; cbn [replaceAll map In]; [reflexivity|].
  intros H. destruct (Z.eqb_spec c a) as [->|_]; [tauto|].
  f_equal. apply IH. tauto.
Qed.

Lemma split_not_nil sep s : split sep s <> [].
Proof.
  destruct s as [|c s]; cbn [split]; [discriminate|].
  destruct (c =? sep)%Z; [discriminate|].
  destruct (split sep s); discriminate.
Qed.

Lemma split_concat sep s :
  concat (split sep s) = List.filter (fun c => negb (c =? sep)%Z) s.
Proof.
  induction s as [|c s IH]; [reflexivity|].
  cbn [split List.filter]. destruct (c =? sep)%Z; cbn [negb concat app].
  - exact IH.
  - destruct (split sep s) as [|word words]; cbn [concat app] in *;
      now rewrite <- IH.
Qed.

Lemma split_no_separator sep s :
  Forall (fun word => ~ In sep word) (split sep s).
Proof.
  induction s as [|c s IH]; cbn [split]; [repeat constructor; tauto|].
  destruct (Z.eqb_spec c sep) as [->|Hc].
  - constructor; [cbn; tauto|exact IH].
  - destruct (split sep s) as [|word words].
    + repeat constructor. cbn. intros [H|[]]. congruence.
    + inversion IH as [|? ? Hw Hws]; subst. constructor; [|assumption].
      cbn. intros [H|H]; [congruence|contradiction].
Qed.

Lemma concat_filter_nonempty (l : list JsString) :
  concat (List.filter (fun arg => negb (jsstring_eqb arg [])) l) = concat l.
Proof.
  induction l as [|w l IH]; [reflexivity|].
  cbn [List.filter concat]. unfold jsstring_eqb at 1.
  case_bool_decide as Hw; cbn [negb concat app]; rewrite IH; [|reflexivity].
  now rewrite Hw.
Qed.

Lemma filter_nonempty_Forall (P : JsString -> Prop) (l : list JsString) :
  Forall P l ->
  Forall (fun w => w <> [] /\ P w)
         (List.filter (fun arg => negb (jsstring_eqb arg [])) l).
Proof.
  induction 1 as [|w l Hw _ IH]; cbn [List.filter]; [constructor|].
  unfold jsstring_eqb at 1.
  case_bool_decide; cbn [negb]; [assumption|].
  constructor; [split|]; assumption.
Qed.

Lemma getLspCommand_enabled ws uri :
  enableLSP (getConfiguration ws uri) = Some true ->
  exists words,
    getLspCommand ws uri = Some (getNargoPath ws uri, lit "lsp" :: words) /\
    Forall (fun word => word <> [] /\ ~ In (code " ") word) words /\
    concat words = List.filter (fun c => negb (c =? code " ")%Z) (flags_of ws uri).
Proof.
  intros He. unfold getLspCommand, flags_of. rewrite He.
  set (flags := match nargoFlags (getConfiguration ws uri) with
                | Some f => if jsstring_eqb f [] then [] else f
                | None => []
                end).
  assert (Hflags : flags = match nargoFlags (getConfiguration ws uri) with
                           | Some f => f
                           | None => []
                           end).
  { subst flags. destruct (nargoFlags (getConfiguration ws uri)) as [f|];
      [|reflexivity].
    unfold jsstring_eqb. now case_bool_decide. }
  cbn [List.filter]. change (negb (jsstring_eqb (lit "lsp") [])) with true.
  cbv iota. eexists. split; [reflexivity|]. split.
  - apply filter_nonempty_Forall, split_no_separator.
  - rewrite concat_filter_nonempty, split_concat, Hflags. reflexivity.
Qed.

(** X10. A glob made from a uri never holds a backslash: each one of
    the path and of the glob has become a slash, nothing else has
    changed, so the length is kept and a path without backslashes is
    only joined to the glob. *)
Theorem X10_globFromUri_slashes uri glob :
  ~ In (code "\") (globFromUri uri glob) /\
  globFromUri uri glob
  = replaceAll (code "\") (code "/") (uri_fsPath uri)
    ++ replaceAll (code "\") (code "/") glob /\
  length (globFromUri uri glob) = length (uri_fsPath uri) + length glob /\
  (~ In (code "\") (uri_fsPath uri) -> ~ In (code "\") glob ->
   globFromUri uri glob = uri_fsPath uri ++ glob).
Proof.
  unfold globFromUri. split; [|split; [|split]].
  - apply replaceAll_gone. discriminate.
  - apply replaceAll_app.
  - unfold replaceAll. now rewrite length_map, length_app.
  - intros H1 H2. apply replaceAll_absent. rewrite in_app_iff. tauto.
Qed.

Lemma X10_witness :
  globFromUri Samples.uri_posix (lit "/**/*") = lit "/home/proj/**/*" /\
  globFromUri Samples.uri_windows (lit "/**/*") = lit "C:/proj/noir/**/*".
Proof.
  split; [|reflexivity].
  apply (proj2 (proj2 (proj2 (X10_globFromUri_slashes
                                Samples.uri_posix (lit "/**/*")))));
    cbn; intuition discriminate.
Defined.

Lemma join_cons sep piece rest :
  rest <> [] -> join sep (piece :: rest) = piece ++ sep :: join sep rest.
Proof. destruct rest; [congruence|reflexivity]. Qed.

(** [split] undoes [join]: joining the pieces gives the string back. *)
Lemma join_split sep s : join sep (split sep s) = s.
Proof.
  induction s as [|c s IH]; [reflexivity|].
  cbn [split]. destruct (c =? sep)%Z eqn:E.
  - apply Z.eqb_eq in E. subst c.
    rewrite join_cons by apply split_not_nil. now rewrite IH.
  - pose proof (split_not_nil sep s) as Hne.
    destruct (split sep s) as [|word words]; [congruence|].
    destruct words as [|word' words].
    + cbn [join] in *. now rewrite IH.
    + rewrite join_cons in * by discriminate.
      cbn [app]. now rewrite IH.
Qed.

(** Pieces free of the separator are fixed by what they join to. *)
Lemma join_injective sep (p : list JsString) : forall q,
  p <> [] -> q <> [] ->
  Forall (fun piece => ~ In sep piece) p ->
  Forall (fun piece => ~ In sep piece) q ->
  join sep p = join sep q -> p = q.
Proof.
  induction p as [|w p IHp]; intros q Hp Hq Fp Fq Hj; [congruence|].
  destruct q as [|v q]; [congruence|].
  inversion Fp as [|? ? Hw Fp']; subst. inversion Fq as [|? ? Hv Fq']; subst.
  clear Hp Hq Fp Fq. revert v Hv Hj.
  induction w as [|a w IHw]; intros v Hv Hj.
  - destruct v as [|b v].
    + f_equal. destruct p as [|w' p], q as [|v' q]; [reflexivity|..].
      * cbn [join] in Hj. destruct q; discriminate Hj.
      * cbn [join] in Hj. destruct p; discriminate Hj.
      * rewrite !join_cons in Hj by discriminate. cbn [app] in Hj.
        injection Hj as Hj. apply IHp; [discriminate..|assumption|assumption|exact Hj].
    + exfalso. destruct p as [|w' p].
      * cbn [join] in Hj. destruct q; discriminate Hj.
      * rewrite join_cons in Hj by discriminate. cbn [app] in Hj.
        assert (Hb : b = sep).
        { destruct q; cbn [join app] in Hj; injection Hj; congruence. }
        apply Hv. left. exact Hb.
  - destruct v as [|b v].
    + exfalso. destruct q as [|v' q].
      * cbn [join] in Hj. destruct p; discriminate Hj.
      * rewrite (join_cons sep [] (v' :: q)) in Hj by discriminate.
        cbn [app] in Hj.
        assert (Ha : a = sep).
        { destruct p; cbn [join app] in Hj; injection Hj; congruence. }
        apply Hw. left. exact Ha.
    + assert (Hab : a = b /\ join sep (w :: p) = join sep (v :: q)).
      { destruct p, q; cbn [join app] in Hj |- *; injection Hj; auto. }
      destruct Hab as [-> Hj'].
      assert (Heq : w :: p = v :: q).
      { apply IHw.
        - intros H. apply Hw. now right.
        - intros H. apply Hv. now right.
        - exact Hj'. }
      now injection Heq as -> ->.
Qed.

(** X11. With the language server enabled, the command is the nargo
    path and the arguments are [lsp] and then the words of the flags
    setting.  The setting is cut at every space: it is made of pieces
    without a space, joined by single spaces, there is only one way to
    cut it so, and the words are those pieces, in order, that are not
    empty.  So none is empty, none holds a space, and together they
    are the setting with its spaces taken out: stray spaces give no
    empty argument and nothing else is lost.  With the server not
    enabled (off or unset) there is no command. *)
Theorem X11_getLspCommand_arguments ws uri :
  (enableLSP (getConfiguration ws uri) <> Some true ->
   getLspCommand ws uri = None) /\
  (enableLSP (getConfiguration ws uri) = Some true ->
   exists pieces,
     pieces <> [] /\
     Forall (fun piece => ~ In (code " ") piece) pieces /\
     join (code " ") pieces = flags_of ws uri /\
     (forall others,
         others <> [] ->
         Forall (fun piece => ~ In (code " ") piece) others ->
         join (code " ") others = flags_of ws uri -> others = pieces) /\
     let words := List.filter (fun piece => negb (jsstring_eqb piece [])) pieces in
     getLspCommand ws uri = Some (getNargoPath ws uri, lit "lsp" :: words) /\
     Forall (fun word => word <> [] /\ ~ In (code " ") word) words /\
     concat words
     = List.filter (fun c => negb (c =? code " ")%Z) (flags_of ws uri)).
Proof.
  split.
  { intros He. unfold getLspCommand.
    destruct (enableLSP (getConfiguration ws uri)) as [[]|]; congruence. }
  intros He. exists (split (code " ") (flags_of ws uri)).
  split; [apply split_not_nil|]. split; [apply split_no_separator|].
  split; [apply join_split|]. split.
  - intros others Hne Hfree Hj. apply join_injective with (sep := code " ").
    + assumption.
    + apply split_not_nil.
    + assumption.
    + apply split_no_separator.
    + now rewrite join_split.
  - cbv zeta. split; [|split].
    + unfold getLspCommand, flags_of. rewrite He.
      assert (Hflags :
        match nargoFlags (getConfiguration ws uri) with
        | Some f => if jsstring_eqb f [] then [] else f
        | None => []
        end
        = match nargoFlags (getConfiguration ws uri) with
          | Some f => f
          | None => []
          end).
      { destruct (nargoFlags (getConfiguration ws uri)) as [f|]; [|reflexivity].
        unfold jsstring_eqb. now case_bool_decide. }
      cbv zeta. rewrite Hflags. cbn [List.filter].
      change (negb (jsstring_eqb (lit "lsp") [])) with true.
      reflexivity.
    + apply filter_nonempty_Forall, split_no_separator.
    + now rewrite concat_filter_nonempty, split_concat.
Qed.

Lemma X11_witness :
  (exists pieces,
      join (code " ") pieces = lit " --foo  --bar " /\
      pieces = [lit ""; lit "--foo"; lit ""; lit "--bar"; lit ""] /\
      getLspCommand Samples.workspace_flags Samples.uri_posix
      = Some (lit "nargo", [lit "lsp"; lit "--foo"; lit "--bar"])) /\
  getLspCommand Samples.workspace_off Samples.uri_posix = None.
Proof.
  split.
  - destruct (proj2 (X11_getLspCommand_arguments
                       Samples.workspace_flags Samples.uri_posix) eq_refl)
      as (pieces & _ & _ & Hj & Huniq & Hc & _).
    assert (Hp : [lit ""; lit "--foo"; lit ""; lit "--bar"; lit ""] = pieces).
    { apply Huniq; [discriminate| |reflexivity].
      repeat constructor; cbn; intuition discriminate. }
    exists pieces. split; [exact Hj|]. split; [now rewrite Hp|].
    rewrite <- Hp in Hc. exact Hc.
  - apply (proj1 (X11_getLspCommand_arguments
                    Samples.workspace_off Samples.uri_posix)).
    discriminate.
Defined.

(** X12. The constructor of the client throws exactly when the language
    server is not enabled.  Otherwise the command and arguments it
    keeps are those of [getLspCommand], and its document selector is one
    filter for the Noir language whose pattern has no backslash: for a
    workspace folder the [file] scheme and everything below the folder,
    else the scheme and the path of the uri itself. *)
Theorem X12_constructor ws uri folder :
  (constructor ws uri folder = None
   <-> enableLSP (getConfiguration ws uri) <> Some true) /\
  (forall setup,
      constructor ws uri folder = Some setup ->
      getLspCommand ws uri = Some (command setup, args setup) /\
      exists filter,
        documentSelector setup = [filter] /\
        language filter = languageId ws /\
        ~ In (code "\") (pattern filter) /\
        match folder with
        | Some _ =>
            scheme filter = lit "file" /\
            pattern filter
            = replaceAll (code "\") (code "/") (uri_fsPath uri) ++ lit "/**/*"
        | None =>
            scheme filter = uri_scheme uri /\
            pattern filter = replaceAll (code "\") (code "/") (uri_fsPath uri)
        end).
Proof.
  unfold constructor. split.
  - destruct (enableLSP (getConfiguration ws uri)) as [[]|] eqn:He.
    + destruct (getLspCommand_enabled ws uri He) as (words & -> & _).
      split; [discriminate|congruence].
    + unfold getLspCommand. rewrite He. split; [discriminate|reflexivity].
    + unfold getLspCommand. rewrite He. split; [discriminate|reflexivity].
  - intros setup. destruct (getLspCommand ws uri) as [[cmd a]|]; [|discriminate].
    intros [= <-]. split; [reflexivity|].
    destruct folder as [f|]; eexists; cbn [documentSelector];
      (split; [reflexivity|]); cbn [language pattern scheme];
      (split; [reflexivity|]);
      (split; [apply replaceAll_gone; discriminate|]);
      (split; [reflexivity|]); unfold globFromUri; rewrite replaceAll_app.
    + reflexivity.
    + cbn. now rewrite app_nil_r.
Qed.

Lemma X12_witness :
  constructor Samples.workspace_off Samples.uri_posix None = None /\
  exists setup,
    constructor Samples.workspace_flags Samples.uri_windows
                (Some (mkWorkspaceFolder (lit "noir"))) = Some setup /\
    map pattern (documentSelector setup) = [lit "C:/proj/noir/**/*"].
Proof.
  split.
  - apply (proj1 (X12_constructor Samples.workspace_off Samples.uri_posix None)).
    discriminate.
  - eexists. split; [reflexivity|].
    destruct (proj2 (X12_constructor Samples.workspace_flags Samples.uri_windows
                       (Some (mkWorkspaceFolder (lit "noir")))) _ eq_refl)
      as (_ & f & Hsel & _ & _ & _ & Hpat).
    rewrite Hsel. cbn [map]. rewrite Hpat. reflexivity.
Defined.

End LspExtras.

(** ** More on the test tree *)

Module ClientExtras.
Import Js Client TreeSpec ClientTheory.

(** *** [#createTests] in closed form *)

Lemma createTest_fold_built ts : forall pkg c,
  fold_left (fun st test => createTest test st) ts (pkg, c)
  = (built ts pkg (next_handle c),
     mkTestController (items c) (next_handle c + length ts)
                      (supportsInvalidation c) (invalidated c)).
Proof.
  induction ts as [|test ts IH]; intros pkg c; cbn [fold_left built length].
  - rewrite Nat.add_0_r. now destruct c.
  - unfold createTest at 2. cbn [createTestItem]. rewrite IH.
    cbn [items next_handle supportsInvalidation invalidated].
    f_equal. f_equal. lia.
Qed.

Lemma createTests_built testData c :
  createTests testData c
  = match tests testData with
    | None =>
        TypeError (mkTestController (items c) (S (next_handle c))
                                    (supportsInvalidation c) (invalidated c))
    | Some ts =>
        Normal (mkTestController
                  (coll_add (built ts (fresh_package testData c) (S (next_handle c)))
                            (items c))
                  (S (next_handle c) + length ts)
                  (supportsInvalidation c) (invalidated c))
    end.
Proof.
  unfold createTests. cbn [createTestItem].
  destruct (tests testData) as [ts|]; [|reflexivity].
  rewrite createTest_fold_built. reflexivity.
Qed.

Lemma built_frame ts : forall pkg n,
  handle (built ts pkg n) = handle pkg /\ id (built ts pkg n) = id pkg /\
  parent (built ts pkg n) = parent pkg.
Proof.
  induction ts as [|test ts IH]; intros pkg n; cbn [built]; [tauto|].
  destruct (IH (add_child
                  (set_range (test_range test)
                     (mkTestItem n (test_id test) (test_label test)
                                 (Some (test_uri test)) None None [])) pkg) (S n))
    as (-> & -> & ->). tauto.
Qed.

(** *** Collections, again *)

Lemma coll_get_add_other item coll i :
  id item <> i -> coll_get i (coll_add item coll) = coll_get i coll.
Proof.
  intros Hne. unfold coll_get.
  induction coll as [|t coll IH]; cbn [coll_add find].
  - unfold has_id. now rewrite bool_decide_eq_false_2.
  - destruct (has_id (id item) t) eqn:E; cbn [find].
    + apply bool_decide_eq_true_1 in E.
      unfold has_id. rewrite !bool_decide_eq_false_2 by congruence. reflexivity.
    + destruct (has_id i t); [reflexivity|exact IH].
Qed.

Lemma coll_add_ids_present item coll :
  In (id item) (map id coll) -> map id (coll_add item coll) = map id coll.
Proof.
  induction coll as [|t coll IH]; cbn [coll_add map In]; [tauto|].
  intros Hin. destruct (has_id (id item) t) eqn:E; cbn [map].
  - apply bool_decide_eq_true_1 in E. now rewrite E.
  - apply bool_decide_eq_false_1 in E. f_equal. apply IH.
    destruct Hin as [H|H]; [congruence|exact H].
Qed.

Lemma coll_add_ids_absent item coll :
  ~ In (id item) (map id coll) ->
  map id (coll_add item coll) = map id coll ++ [id item].
Proof. intros H. now rewrite coll_add_fresh, map_app. Qed.

Lemma coll_add_ids_NoDup item coll :
  List.NoDup (map id coll) -> List.NoDup (map id (coll_add item coll)).
Proof.
  intros Hnd. destruct (List.in_dec (List.list_eq_dec Z.eq_dec) (id item) (map id coll))
    as [Hin|Hout].
  - now rewrite coll_add_ids_present.
  - rewrite coll_add_ids_absent by assumption.
    apply NoDup_app_intro; [assumption|repeat constructor; cbn; tauto|].
    intros x Hx [<-|[]]. contradiction.
Qed.

Lemma find_snoc {A : Type} (f : A -> bool) l x :
  find f (l ++ [x])
  = match find f l with
    | Some y => Some y
    | None => if f x then Some x else None
    end.
Proof.
  induction l as [|y l IH]; cbn [app find]; [reflexivity|].
  destruct (f y); [reflexivity|exact IH].
Qed.

(** *** The children of a package that has been built *)

Lemma built_lookup ts : forall pkg n i,
  match last_with_id i ts with
  | Some test =>
      exists item, coll_get i (children (built ts pkg n)) = Some item /\
                   shows (handle pkg) item test
  | None => coll_get i (children (built ts pkg n)) = coll_get i (children pkg)
  end.
Proof.
  induction ts as [|test ts IH]; intros pkg n i; [reflexivity|].
  unfold last_with_id. cbn [rev built]. rewrite find_snoc.
  fold (last_with_id i ts).
  set (item := set_range (test_range test)
                 (mkTestItem n (test_id test) (test_label test)
                             (Some (test_uri test)) None None [])).
  specialize (IH (add_child item pkg) (S n) i).
  destruct (last_with_id i ts) as [later|]; [exact IH|].
  rewrite IH. cbn [add_child set_children children].
  case_bool_decide as Hi.
  - exists (set_parent (handle pkg) item). split; [|repeat split; assumption].
    rewrite <- Hi. apply (coll_get_add (set_parent (handle pkg) item)).
  - apply coll_get_add_other. exact Hi.
Qed.

Lemma built_children ts (P : TestItem -> Prop) : forall pkg n,
  Forall P (children pkg) ->
  (forall item test, shows (handle pkg) item test -> n <= handle item -> P item) ->
  Forall P (children (built ts pkg n)).
Proof.
  induction ts as [|test ts IH]; intros pkg n Hall Hmk; [exact Hall|].
  cbn [built]. apply IH.
  - cbn [add_child set_children children]. apply coll_add_Forall; [|exact Hall].
    apply (Hmk _ test); [repeat split|cbn; lia].
  - intros item t Hs Hle. apply (Hmk item t); [exact Hs|lia].
Qed.

Lemma built_ids_NoDup ts : forall pkg n,
  List.NoDup (map id (children pkg)) ->
  List.NoDup (map id (children (built ts pkg n))).
Proof.
  induction ts as [|test ts IH]; intros pkg n Hnd; [exact Hnd|].
  cbn [built]. apply IH. cbn [add_child set_children children].
  now apply coll_add_ids_NoDup.
Qed.

Lemma built_package_item ts testData c :
  package_item (built ts (fresh_package testData c) (S (next_handle c))).
Proof.
  destruct (built_frame ts (fresh_package testData c) (S (next_handle c)))
    as (Hh & _ & Hp).
  split; [now rewrite Hp|]. rewrite Hh.
  apply built_children; [constructor|].
  intros item test Hs _. split; apply Hs.
Qed.

(** X13. An update of one package leaves the others alone: every other
    id leads to the item it led to before, and the ids of the packages
    are those there were and the id of the package updated. *)
Theorem X13_update_leaves_other_packages testData ts c :
  tests testData = Some ts ->
  exists c',
    updateTests testData c = Normal c' /\
    (forall i, i <> package testData ->
               coll_get i (items c') = coll_get i (items c)) /\
    (forall i, In i (map id (items c'))
               <-> i = package testData \/ In i (map id (items c))).
Proof.
  intros Hts. unfold updateTests. rewrite createTests_built, Hts.
  eexists. split; [reflexivity|].
  set (old := if supportsInvalidation c then _ else c).
  assert (Hold : items old = items c /\ next_handle old = next_handle c)
    by (subst old; destruct (supportsInvalidation c); split; reflexivity).
  destruct Hold as [Hit Hn]. cbn [items]. rewrite Hit.
  set (pkg := built ts (fresh_package testData old) (S (next_handle old))).
  assert (Hid : id pkg = package testData)
    by (subst pkg; now destruct (built_frame ts (fresh_package testData old)
                                   (S (next_handle old))) as (_ & -> & _)).
  split.
  - intros i Hi. apply coll_get_add_other. congruence.
  - intros i. rewrite coll_add_ids, Hid. reflexivity.
Qed.

Lemma X13_witness :
  exists c',
    updateTests Samples.snapshot_B Examples.controller_A = Normal c' /\
    coll_get (lit "A") (items c') = Some Examples.item_A /\
    In (lit "B") (map id (items c')).
Proof.
  destruct (X13_update_leaves_other_packages
              Samples.snapshot_B [Samples.test_U1] Examples.controller_A eq_refl)
    as (c' & Hu & Hother & Hids).
  exists c'. split; [exact Hu|]. split.
  - rewrite Hother; [reflexivity|discriminate].
  - apply Hids. now left.
Defined.

(** X14. After an update, looking a test up by its id under the package
    gives the item made of the last test of the notification with that
    id, and nothing for an id the notification does not have; so the
    children have ids that differ from one another even when the
    notification repeats one. *)
Theorem X14_children_by_id testData ts c :
  tests testData = Some ts ->
  exists c' pkg,
    updateTests testData c = Normal c' /\
    coll_get (package testData) (items c') = Some pkg /\
    List.NoDup (map id (children pkg)) /\
    forall i,
      match last_with_id i ts with
      | Some test =>
          exists item, coll_get i (children pkg) = Some item /\
                       shows (handle pkg) item test
      | None => coll_get i (children pkg) = None
      end.
Proof.
  intros Hts. unfold updateTests. rewrite createTests_built, Hts.
  set (old := if supportsInvalidation c then _ else c).
  set (pkg := built ts (fresh_package testData old) (S (next_handle old))).
  destruct (built_frame ts (fresh_package testData old) (S (next_handle old)))
    as (Hh & Hid & _). fold pkg in Hh, Hid.
  exists (mkTestController (coll_add pkg (items old))
                           (S (next_handle old) + length ts)
                           (supportsInvalidation old) (invalidated old)), pkg.
  split; [reflexivity|]. split; [|split].
  - cbn [items]. change (package testData) with (id (fresh_package testData old)).
    rewrite <- Hid. apply coll_get_add.
  - apply built_ids_NoDup. constructor.
  - intros i.
    pose proof (built_lookup ts (fresh_package testData old)
                  (S (next_handle old)) i) as Hl.
    fold pkg in Hl. rewrite Hh. exact Hl.
Qed.

Lemma X14_witness :
  exists c' pkg item,
    updateTests Samples.snapshot_twice Examples.controller_empty = Normal c' /\
    coll_get (lit "A") (items c') = Some pkg /\
    coll_get (lit "T1") (children pkg) = Some item /\
    label item = lit "test_one_again".
Proof.
  destruct (X14_children_by_id
              Samples.snapshot_twice
              [Examples.test_T1; Examples.test_T2; Samples.test_T1']
              Examples.controller_empty eq_refl)
    as (c' & pkg & Hu & Hg & _ & Hlook).
  destruct (Hlook (lit "T1")) as (item & Hitem & Hshows).
  exists c', pkg, item. split; [exact Hu|]. split; [exact Hg|].
  split; [exact Hitem|]. apply Hshows.
Defined.

(** *** Fetching and refreshing *)

Lemma forEach_tests_app f before after c :
  forEach_tests f (before ++ after) c
  = match forEach_tests f before c with
    | Normal c1 => forEach_tests f after c1
    | TypeError c' => TypeError c'
    end.
Proof.
  revert c. induction before as [|testData before IH]; intros c; [reflexivity|].
  cbn [app forEach_tests]. destruct (f testData c); [apply IH|reflexivity].
Qed.

Lemma forEach_tests_invariant (I : TestController -> Prop) f :
  (forall testData c, I c -> I (controller_of (f testData c))) ->
  forall response c, I c -> I (controller_of (forEach_tests f response c)).
Proof.
  intros Hf response. induction response as [|testData response IH];
    intros c Hc; [exact Hc|].
  cbn [forEach_tests]. specialize (Hf testData c Hc).
  destruct (f testData c) as [c'|c']; [apply IH|]; exact Hf.
Qed.

Lemma before_update testData c :
  let old := if supportsInvalidation c
             then invalidateTestResults (coll_get (package testData) (items c)) c
             else c in
  items old = items c /\ next_handle old = next_handle c.
Proof. cbn zeta. destruct (supportsInvalidation c); split; reflexivity. Qed.

Lemma createTests_keeps_well_formed testData c :
  well_formed c -> well_formed (controller_of (createTests testData c)).
Proof.
  intros Hwf. destruct (createTests testData c) as [c'|c'] eqn:E.
  - exact (createTests_well_formed testData c c' Hwf E).
  - rewrite createTests_built in E.
    destruct (tests testData); [discriminate|]. injection E as <-.
    destruct Hwf as [Hd Hb]. split; [exact Hd|].
    cbn [controller_of items next_handle].
    eapply List.Forall_impl; [|exact Hb]. cbn. lia.
Qed.

Lemma updateTests_keeps_well_formed testData c :
  well_formed c -> well_formed (controller_of (updateTests testData c)).
Proof.
  intros Hwf. unfold updateTests. apply createTests_keeps_well_formed.
  destruct (supportsInvalidation c); exact Hwf.
Qed.

Lemma createTests_keeps_shape testData c :
  two_level c /\ unique_ids c ->
  two_level (controller_of (createTests testData c)) /\
  unique_ids (controller_of (createTests testData c)).
Proof.
  intros [Htwo [Hids Hch]]. rewrite createTests_built.
  destruct (tests testData) as [ts|]; cbn [controller_of];
    unfold two_level, unique_ids; cbn [items]; [|tauto].
  split; [|split].
  - apply coll_add_Forall; [apply built_package_item|exact Htwo].
  - now apply coll_add_ids_NoDup.
  - apply coll_add_Forall; [|exact Hch]. apply built_ids_NoDup. constructor.
Qed.

Lemma updateTests_keeps_shape testData c :
  two_level c /\ unique_ids c ->
  two_level (controller_of (updateTests testData c)) /\
  unique_ids (controller_of (updateTests testData c)).
Proof.
  intros H. unfold updateTests. apply createTests_keeps_shape.
  destruct (supportsInvalidation c); exact H.
Qed.

(** X16. A fetch or a refresh stops at the first package that comes
    without tests: it throws, the packages before it are in the tree as
    if the answer had ended there, and the packages after it are not
    looked at. *)
Theorem X16_fetch_stops_at_missing_tests before bad after c c1 :
  tests bad = None ->
  (fetchTests before c = Normal c1 ->
   exists c', fetchTests (before ++ bad :: after) c = TypeError c' /\
              items c' = items c1) /\
  (refreshTests before c = Normal c1 ->
   exists c', refreshTests (before ++ bad :: after) c = TypeError c' /\
              items c' = items c1).
Proof.
  intros Hbad. unfold fetchTests, refreshTests. split; intros Hb;
    rewrite forEach_tests_app, Hb; cbn [forEach_tests].
  - rewrite createTests_built, Hbad. eexists. split; reflexivity.
  - destruct (updateTests_without_tests bad c1 Hbad) as (c' & -> & Hit).
    eexists. split; [reflexivity|exact Hit].
Qed.

Lemma X16_witness :
  exists c',
    fetchTests [Examples.snapshot_A; Samples.snapshot_bad; Samples.snapshot_B]
               Examples.controller_empty = TypeError c' /\
    items c' = [Examples.item_A].
Proof.
  apply (proj1 (X16_fetch_stops_at_missing_tests
                  [Examples.snapshot_A] Samples.snapshot_bad [Samples.snapshot_B]
                  Examples.controller_empty Examples.controller_A eq_refl)).
  reflexivity.
Defined.

(** X17. Whatever is fetched, refreshed or updated, and however that
    ends, the items of the tree stay distinct objects, each made before
    the next handle the controller will give out; so it is of every
    tree grown from an empty controller. *)
Theorem X17_items_stay_distinct response testData c :
  well_formed c ->
  well_formed (controller_of (fetchTests response c)) /\
  well_formed (controller_of (refreshTests response c)) /\
  well_formed (controller_of (updateTests testData c)).
Proof.
  intros Hwf. unfold fetchTests, refreshTests. split; [|split].
  - apply (forEach_tests_invariant well_formed); [|exact Hwf].
    apply createTests_keeps_well_formed.
  - apply (forEach_tests_invariant well_formed); [|exact Hwf].
    apply updateTests_keeps_well_formed.
  - now apply updateTests_keeps_well_formed.
Qed.

Lemma X17_witness :
  well_formed
    (controller_of (refreshTests [Examples.snapshot_A; Samples.snapshot_twice;
                                  Examples.snapshot_A']
                                 Examples.controller_empty)).
Proof.
  apply (X17_items_stay_distinct
           [Examples.snapshot_A; Samples.snapshot_twice; Examples.snapshot_A']
           Examples.snapshot_A Examples.controller_empty).
  apply well_formed_empty.
Defined.

(** X18. Whatever is fetched, refreshed or updated, and however that
    ends, the tree keeps its two levels and its ids: an item of the
    controller has no parent, its children have it as their parent and
    no children of their own, no two packages share an id and no two
    tests of a package do. *)
Theorem X18_tree_keeps_its_shape response testData c :
  two_level c /\ unique_ids c ->
  (two_level (controller_of (fetchTests response c)) /\
   unique_ids (controller_of (fetchTests response c))) /\
  (two_level (controller_of (refreshTests response c)) /\
   unique_ids (controller_of (refreshTests response c))) /\
  (two_level (controller_of (updateTests testData c)) /\
   unique_ids (controller_of (updateTests testData c))).
Proof.
  intros H. unfold fetchTests, refreshTests. split; [|split].
  - apply (forEach_tests_invariant (fun c => two_level c /\ unique_ids c));
      [|exact H].
    apply createTests_keeps_shape.
  - apply (forEach_tests_invariant (fun c => two_level c /\ unique_ids c));
      [|exact H].
    apply updateTests_keeps_shape.
  - now apply updateTests_keeps_shape.
Qed.

Lemma shape_empty n b l :
  two_level (mkTestController [] n b l) /\ unique_ids (mkTestController [] n b l).
Proof. repeat split; constructor. Qed.

Lemma X18_witness :
  two_level
    (controller_of (fetchTests [Examples.snapshot_A; Samples.snapshot_B]
                               Examples.controller_empty)).
Proof.
  apply (X18_tree_keeps_its_shape
           [Examples.snapshot_A; Samples.snapshot_B]
           Examples.snapshot_A Examples.controller_empty).
  apply shape_empty.
Defined.

(** *** Runs *)

Lemma leaf_flat t : leaf t -> flat t.
Proof. intros [Hp Hc]. split; [auto|]. rewrite Hc. constructor. Qed.

Lemma package_item_flat pkg : package_item pkg -> flat pkg.
Proof.
  intros [Hp Hch]. split; [congruence|].
  eapply List.Forall_impl; [|exact Hch]. intros ch [H1 H2]. split; congruence.
Qed.

Lemma plan_leaves request l :
  Forall leaf l ->
  flat_map (plan_item request) l
  = List.filter (fun ch => negb (excluded request ch)) l.
Proof.
  induction 1 as [|t l [Hp _] _ IH]; [reflexivity|].
  cbn [flat_map List.filter]. rewrite IH. unfold plan_item.
  destruct (excluded request t); [reflexivity|].
  destruct (parent t); [reflexivity|contradiction].
Qed.

Lemma plan_snoc request queue t :
  plan request (queue ++ [t]) = plan_item request t ++ plan request queue.
Proof. unfold plan. rewrite rev_app_distr. reflexivity. Qed.

Lemma plan_push_children request queue t :
  excluded request t = false -> parent t = None -> Forall leaf (children t) ->
  plan request (queue ++ children t) = plan_item request t ++ plan request queue.
Proof.
  intros He Hp Hl. unfold plan. rewrite rev_app_distr, flat_map_app.
  f_equal. unfold plan_item. rewrite He, Hp.
  apply plan_leaves. apply List.Forall_forall. intros x Hx.
  rewrite List.Forall_forall in Hl. apply Hl. now apply in_rev.
Qed.

Section Plans.
Context {World : Type} (server : Server World) (request : TestRunRequest).

Lemma run_loop_follows_plan fuel : forall queue w log,
  Forall flat queue ->
  total_weight queue < fuel ->
  exists part,
    requested (log_of (run_loop server fuel request queue w log))
    = requested log ++ part /\
    part `prefix_of` plan request queue /\
    (calm server -> part = plan request queue /\
             exists w' log',
               run_loop server fuel request queue w log = Finished w' log').
Proof.
  induction fuel as [|fuel IH]; intros queue w log Hflat Hfuel; [lia|].
  assert (Hstop : forall l : list RunEvent,
             requested (l ++ [Ended]) = requested l ++ [])
    by (intros l; now rewrite requested_app).
  cbn [run_loop].
  destruct queue as [|t0 q0] using rev_ind.
  { exists []. cbn [length Nat.ltb Nat.leb andb log_of].
    split; [apply Hstop|]. split; [apply prefix_nil|].
    intros _. split; [reflexivity|eauto]. }
  clear IHq0. fold (push q0 t0). rewrite push_nonempty, pop_push.
  unfold push in *.
  destruct (isCancellationRequested server w) eqn:Hcancel; cbn [negb andb].
  { exists []. cbn [log_of]. split; [apply Hstop|]. split; [apply prefix_nil|].
    intros [Hc _]. rewrite Hc in Hcancel. discriminate. }
  apply Forall_app in Hflat as [Hq Ht].
  inversion Ht as [|? ? [Hleafy Hkids] _]; subst.
  rewrite total_weight_app in Hfuel. cbn [total_weight fold_right] in Hfuel.
  rewrite weight_children in Hfuel. rewrite plan_snoc.
  destruct (excluded request t0) eqn:Hex.
  { destruct (IH q0 w log Hq ltac:(lia)) as (part & Hr & Hp & Hc).
    exists part. unfold plan_item. rewrite Hex. cbn [app]. auto. }
  destruct (parent t0) as [p|] eqn:Hpar.
  - assert (Hch : children t0 = []) by (apply Hleafy; discriminate).
    assert (Hitem : plan_item request t0 = [t0])
      by (unfold plan_item; now rewrite Hex, Hpar).
    rewrite Hitem, Hch. cbn [push_all fold_left].
    destruct (sendRequest server w (id t0)) as [w1 [r|reason]] eqn:Hsend.
    + assert (Hnext : forall log1,
                 requested log1 = requested log ++ [t0] ->
                 exists part,
                   requested (log_of (run_loop server fuel request q0 w1 log1))
                   = requested log ++ part /\
                   part `prefix_of` [t0] ++ plan request q0 /\
                   (calm server -> part = [t0] ++ plan request q0 /\
                            exists w' log',
                              run_loop server fuel request q0 w1 log1
                              = Finished w' log')).
      { intros log1 Hlog1.
        destruct (IH q0 w1 log1 Hq ltac:(lia)) as (part & Hr & Hp & Hc).
        exists (t0 :: part). rewrite Hr, Hlog1, <- app_assoc.
        split; [reflexivity|]. split; [now apply prefix_cons|].
        intros Hcalm. destruct (Hc Hcalm) as [-> Hfin]. auto. }
      destruct (result r); apply Hnext;
        rewrite ?requested_app; cbn; now rewrite ?app_nil_r.
    + exists [t0]. cbn [log_of]. rewrite requested_app.
      split; [reflexivity|]. split; [apply prefix_app_r; reflexivity|].
      intros [_ Ha]. destruct (Ha w (id t0)) as (w' & r & Hr).
      rewrite Hr in Hsend. discriminate.
  - rewrite push_all_app.
    destruct (IH (q0 ++ children t0) w log) as (part & Hr & Hp & Hc).
    + apply Forall_app. split; [exact Hq|].
      eapply List.Forall_impl; [|exact Hkids]. apply leaf_flat.
    + rewrite total_weight_app. lia.
    + rewrite plan_push_children in Hp, Hc by assumption.
      exists part. auto.
Qed.

(** Once the token is cancelled the loop ends where it stands. *)
Lemma run_loop_cancelled fuel queue w log :
  isCancellationRequested server w = true ->
  requested (log_of (run_loop server fuel request queue w log)) = requested log
  \/ run_loop server fuel request queue w log = OutOfFuel.
Proof.
  intros Hc. destruct fuel as [|fuel]; [now right|left].
  cbn [run_loop]. rewrite Hc, andb_false_r. cbn [log_of].
  now rewrite requested_app, app_nil_r.
Qed.

Lemma run_loop_one_request fuel : forall queue w log,
  (forall w i, isCancellationRequested server (fst (sendRequest server w i)) = true) ->
  requested log = [] ->
  length (requested (log_of (run_loop server fuel request queue w log))) <= 1.
Proof.
  induction fuel as [|fuel IH]; intros queue w log Hcancel Hlog; [cbn; lia|].
  cbn [run_loop].
  destruct ((0 <? length queue)%nat && negb (isCancellationRequested server w)).
  2:{ cbn [log_of]. rewrite requested_app, Hlog. cbn. lia. }
  destruct (pop queue) as [[test queue']|].
  2:{ cbn [log_of]. rewrite requested_app, Hlog. cbn. lia. }
  destruct (excluded request test); [now apply IH|].
  destruct (parent test); [|now apply IH].
  pose proof (Hcancel w (id test)) as Hc.
  destruct (sendRequest server w (id test)) as [w1 [r|reason]]; cbn [fst] in Hc.
  - assert (Hafter : forall queue1 log1,
               requested log1 = [test] ->
               length (requested (log_of (run_loop server fuel request
                                                   queue1 w1 log1))) <= 1).
    { intros queue1 log1 Hlog1.
      destruct (run_loop_cancelled fuel queue1 w1 log1 Hc) as [->| ->];
        [rewrite Hlog1|]; cbn; lia. }
    destruct (result r); apply Hafter;
      rewrite ?requested_app, Hlog; reflexivity.
  - cbn [log_of]. rewrite requested_app, Hlog. cbn. lia.
Qed.

(** The log of a run, as far as reports go. *)
Lemma run_loop_reports fuel : forall queue w log,
  reports log ->
  match run_loop server fuel request queue w log with
  | Finished _ log' => exists body, log' = body ++ [Ended] /\ reports body
  | Rejected _ log' _ =>
      exists body t, log' = body ++ [Requested t] /\ reports body
  | OutOfFuel => True
  end.
Proof.
  induction fuel as [|fuel IH]; intros queue w log Hlog; [exact I|].
  cbn [run_loop].
  destruct ((0 <? length queue)%nat && negb (isCancellationRequested server w));
    [|eauto].
  destruct (pop queue) as [[test queue']|]; [|eauto].
  destruct (excluded request test); [now apply IH|].
  destruct (parent test); [|now apply IH].
  destruct (sendRequest server w (id test)) as [w1 [r|reason]]; [|eauto].
  destruct (result r); apply IH; rewrite <- ?app_assoc; cbn [app];
    apply reports_snoc; try assumption; constructor.
Qed.

End Plans.

Lemma reports_no_end body : reports body -> ~ In Ended body.
Proof.
  induction 1 as [|l b _ IH Hb]; [tauto|].
  rewrite in_app_iff. intros [H|H]; [tauto|].
  destruct Hb; cbn in H; intuition discriminate.
Qed.

Lemma initial_queue_run_all request c :
  include request = None -> initial_queue request c = items c.
Proof. intros Hi. unfold initial_queue. rewrite Hi. apply push_all_app. Qed.

(** *** No handle twice in a plan *)

Lemma map_flat_map {A B C : Type} (h : B -> C) (g : A -> list B) l :
  map h (flat_map g l) = flat_map (fun x => map h (g x)) l.
Proof.
  induction l as [|x l IH]; [reflexivity|].
  cbn [flat_map]. now rewrite map_app, IH.
Qed.

Lemma NoDup_flat_map_within {A B : Type} (f g : A -> list B) l :
  (forall x, In x l -> incl (g x) (f x) /\ (List.NoDup (f x) -> List.NoDup (g x))) ->
  List.NoDup (flat_map f l) -> List.NoDup (flat_map g l).
Proof.
  induction l as [|x l IH]; intros Hsub Hnd; [constructor|].
  cbn [flat_map] in *.
  destruct (Hsub x (or_introl eq_refl)) as [Hincl Hg].
  apply NoDup_app_intro.
  - apply Hg. eapply NoDup_app_remove_r, Hnd.
  - apply IH; [|eapply NoDup_app_remove_l, Hnd].
    intros y Hy. apply Hsub. now right.
  - intros b Hb Hin. apply (NoDup_app_disjoint _ _ b Hnd); [now apply Hincl|].
    apply in_flat_map in Hin as (y & Hy & Hby). apply in_flat_map.
    exists y. split; [exact Hy|]. now apply (proj1 (Hsub y (or_intror Hy))).
Qed.

Lemma NoDup_map_filter {A B : Type} (h : A -> B) (p : A -> bool) l :
  List.NoDup (map h l) -> List.NoDup (map h (List.filter p l)).
Proof.
  induction l as [|x l IH]; cbn [map List.filter]; [trivial|].
  intros Hnd. apply NoDup_cons_iff in Hnd as [Hx Hnd].
  destruct (p x); [|now apply IH]. cbn [map]. constructor; [|now apply IH].
  intros Hin. apply Hx. apply in_map_iff in Hin as (y & Hy & Hin).
  apply filter_In in Hin as [Hin _]. apply in_map_iff. eauto.
Qed.

Lemma plan_handles_distinct request (l : list TestItem) :
  Forall package_item l ->
  List.NoDup (flat_map handles l) ->
  List.NoDup (map handle (plan request l)).
Proof.
  intros Htwo Hnd. unfold plan. rewrite map_flat_map.
  apply (NoDup_flat_map_within handles).
  - intros pkg Hpkg. apply in_rev in Hpkg.
    rewrite List.Forall_forall in Htwo. destruct (Htwo pkg Hpkg) as [Hp Hch].
    assert (Hleaves : flat_map handles (children pkg) = map handle (children pkg)).
    { apply leaves_handles. eapply List.Forall_impl; [|exact Hch]. cbn. tauto. }
    rewrite handles_children, Hleaves. unfold plan_item. rewrite Hp.
    destruct (excluded request pkg); [split; [intros ? []|constructor]|].
    split.
    + intros h Hh. right. apply in_map_iff in Hh as (t & <- & Ht).
      apply filter_In in Ht as [Ht _]. apply in_rev in Ht. now apply in_map.
    + intros Hall. apply NoDup_cons_iff in Hall as [_ Hall].
      apply NoDup_map_filter. rewrite map_rev. now apply NoDup_rev.
  - eapply Permutation.Permutation_NoDup; [|exact Hnd].
    apply Permutation.Permutation_flat_map, Permutation.Permutation_rev.
Qed.

Lemma runTest_follows_plan {World : Type} (server : Server World) request c w :
  Forall flat (initial_queue request c) ->
  requested (log_of (runTest server request c w))
    `prefix_of` plan request (initial_queue request c) /\
  (calm server ->
   exists w' log,
     runTest server request c w = Finished w' log /\
     requested log = plan request (initial_queue request c)).
Proof.
  intros Hflat. unfold runTest.
  destruct (run_loop_follows_plan server request
              (S (total_weight (initial_queue request c)))
              (initial_queue request c) w [] Hflat ltac:(lia))
    as (part & Hr & Hp & Hc).
  cbn [requested flat_map app] in Hr. split; [now rewrite Hr|].
  intros Hcalm. destruct (Hc Hcalm) as (-> & w' & log' & Hfin).
  exists w', log'. split; [exact Hfin|]. now rewrite Hfin in Hr.
Qed.

(** X19. When every entry of the initial queue is a test, or an item
    whose children are tests, the requests a run sends are the start of
    its plan: the entries last first, and for each its own request or
    those of its children that are not excluded, last child first.
    With a server that answers and no cancellation the run sends the
    whole plan and ends. *)
Theorem X19_requests_follow_plan {World : Type} (server : Server World)
        request c w :
  Forall flat (initial_queue request c) ->
  requested (log_of (runTest server request c w))
    `prefix_of` plan request (initial_queue request c) /\
  (calm server ->
   exists w' log,
     runTest server request c w = Finished w' log /\
     requested log = plan request (initial_queue request c)).
Proof. apply runTest_follows_plan. Qed.

Lemma X19_witness :
  exists w' log,
    runTest Examples.server_pass Examples.run_T1_without_A
            Examples.controller_A tt = Finished w' log /\
    requested log = [Examples.item_T1].
Proof.
  assert (H1 : leaf Examples.item_T1) by (split; [discriminate|reflexivity]).
  assert (H2 : leaf Examples.item_T2) by (split; [discriminate|reflexivity]).
  assert (Hflat : Forall flat (initial_queue Examples.run_T1_without_A
                                             Examples.controller_A)).
  { constructor; [split|constructor; [now apply leaf_flat|constructor]].
    - intros H. now contradiction H.
    - constructor; [exact H1|constructor; [exact H2|constructor]]. }
  apply (proj2 (X19_requests_follow_plan
                  Examples.server_pass Examples.run_T1_without_A
                  Examples.controller_A tt Hflat)).
  split; [reflexivity|]. intros w i. eexists _, _. reflexivity.
Defined.

(** X20. As long as each request of a run settles, by an answer or by
    a rejection, the loop takes no more turns than the trees of its
    initial queue have items, and one more; a request that never
    settles leaves the run waiting at it, and is not covered here.  A
    run that comes to its end has ended the test run once, as its last
    act, and a run that a rejected request breaks off has not ended it
    at all: its log stops at that request.  Before that the log holds,
    request by request, the request and at most one report, of the
    test that was asked for. *)
Theorem X20_run_log_shape {World : Type} (server : Server World) request c w :
  match runTest server request c w with
  | Finished _ log =>
      exists body, log = body ++ [Ended] /\ reports body /\ ~ In Ended body
  | Rejected _ log _ =>
      exists body t,
        log = body ++ [Requested t] /\ reports body /\ ~ In Ended log
  | OutOfFuel => False
  end.
Proof.
  pose proof (runTest_ends server request c w) as Hends.
  unfold runTest in *.
  pose proof (run_loop_reports server request
                (S (total_weight (initial_queue request c)))
                (initial_queue request c) w [] reports_nil) as H.
  destruct (run_loop server _ request _ w []) as [w' log|w' log reason|].
  - destruct H as (body & -> & Hb). exists body.
    split; [reflexivity|]. split; [exact Hb|now apply reports_no_end].
  - destruct H as (body & t & -> & Hb). exists body, t.
    split; [reflexivity|]. split; [exact Hb|].
    rewrite in_app_iff. intros [Hin|[Hin|[]]]; [|discriminate].
    now apply (reports_no_end body).
  - congruence.
Qed.

(** X21. When the token is cancelled while a request is under way, that
    request is the last: the run sends one request at most. *)
Theorem X21_cancel_during_request {World : Type} (server : Server World)
        request c w :
  (forall w i, isCancellationRequested server (fst (sendRequest server w i)) = true) ->
  length (requested (log_of (runTest server request c w))) <= 1.
Proof.
  intros Hcancel. unfold runTest. now apply run_loop_one_request.
Qed.

Lemma X21_witness :
  length (requested (log_of (runTest Samples.server_cancel_during Examples.run_all
                                     Examples.controller_A false))) <= 1.
Proof.
  apply (X21_cancel_during_request Samples.server_cancel_during Examples.run_all
           Examples.controller_A false).
  reflexivity.
Defined.

(** X22. A run of everything (no [include]) over a tree of two levels
    whose items are distinct objects sends no request twice for one
    test, whatever the server answers and whenever the run is
    cancelled. *)
Theorem X22_no_test_run_twice {World : Type} (server : Server World)
        request c w :
  include request = None ->
  two_level c ->
  distinct_items c ->
  List.NoDup (map handle (requested (log_of (runTest server request c w)))).
Proof.
  intros Hinc Htwo Hdist.
  assert (Hflat : Forall flat (initial_queue request c)).
  { rewrite initial_queue_run_all by assumption.
    eapply List.Forall_impl; [|exact Htwo]. apply package_item_flat. }
  destruct (proj1 (runTest_follows_plan server request c w Hflat)) as [rest Hrest].
  rewrite initial_queue_run_all in Hrest by assumption.
  pose proof (plan_handles_distinct request (items c) Htwo Hdist) as Hnd.
  rewrite Hrest, map_app in Hnd. eapply NoDup_app_remove_r, Hnd.
Qed.

Lemma X22_witness :
  List.NoDup
    (map handle
         (requested (log_of (runTest Samples.server_down Examples.run_all
                                     Examples.controller_A tt)))).
Proof.
  apply (X22_no_test_run_twice Samples.server_down Examples.run_all
           Examples.controller_A tt eq_refl).
  - constructor; [|constructor]. split; [reflexivity|].
    repeat constructor.
  - exact (proj1 controller_A_well_formed).
Defined.

End ClientExtras.
